(** * A to-do application: ownership-scoped CRUD handlers and the client session

    Shallow embedding of
    - [src/server/routes/todos.js]  (the four Express handlers on the Todo collection),
    - [src/services/api.ts] and [src/contexts/AuthContext.tsx] (the client's session manager),
    - [src/app/index.tsx] and [src/app/(tabs)/_layout.tsx] (the view router),
    followed by the properties the specification states about them. *)

From stdpp Require Import base numbers strings list sorting gmap.

Local Open Scope string_scope.
Local Open Scope list_scope.
Local Open Scope Z_scope.

(** ** JavaScript values shared by server and client *)

(** [new Error(message)]. *)
Record Error := mkError { message : string }.

(** The result of running a block that may [throw] (or of awaiting a promise
    that may reject). *)
Inductive outcome (A : Type) : Type :=
| Return (a : A)
| Throw (e : Error).
Arguments Return {A} a.
Arguments Throw {A} e.

(** Truthiness of a string: only the empty string is falsy. *)
Definition truthy (s : string) : bool :=
  match s with
  | EmptyString => false
  | String _ _ => true
  end.

(** Truthiness of a possibly [undefined] string. *)
Definition truthy_opt (o : option string) : bool :=
  match o with
  | Some s => truthy s
  | None => false
  end.

(** [o || d] where [o] is a possibly [undefined] string. *)
Definition or_else (o : option string) (d : string) : string :=
  match o with
  | Some s => if truthy s then s else d
  | None => d
  end.

(** ** The server: [src/server/routes/todos.js] *)

Module Server.

(** Identifiers of documents and of users (well-formed ObjectIds). A path
    parameter that is not a well-formed identifier makes the lookup throw,
    and the handler then answers 500 from its [catch]; such requests are
    not among the requests below. *)
Definition ObjectId := nat.

(** [new Date(s)]: the date built from the request's string; the handlers
    never inspect it. Whether the string can be read as a date is not
    represented: in the program a string that cannot gives an invalid date,
    which the save rejects, so acceptance is stated below only for requests
    that build no date. *)
Record Date := newDate { date_arg : string }.

(** A stored Todo document, with the fields of [src/types/todo.ts] and the
    owner reference the handlers filter on. Times are milliseconds. *)
Record Todo := mkTodo {
  _id : ObjectId;
  title : string;
  description : string;
  completed : bool;
  priority : string;
  dueDate : option Date;
  user : ObjectId;
  createdAt : Z;
  updatedAt : Z
}.

(** The object literal handed to [new Todo({...})] in the create handler;
    [None] is [undefined]. *)
Record TodoInit := mkInit {
  init_title : option string;
  init_description : option string;
  init_priority : option string;
  init_dueDate : option Date;
  init_user : ObjectId
}.

(** A document that has been constructed but not saved yet: the title may
    still be [undefined]; it has neither identifier nor timestamps in the
    collection. *)
Record Draft := mkDraft {
  draft_title : option string;
  draft_description : string;
  draft_completed : bool;
  draft_priority : string;
  draft_dueDate : option Date;
  draft_user : ObjectId
}.

(** Modelled from the spec: the Todo schema ([models/Todo.js], not among the
    sources). The priority is one of low, medium and high. *)
Definition priorities : list string := ["low"; "medium"; "high"].

(** Modelled from the spec: the schema's defaults ([models/Todo.js]):
    priority medium, empty description, not completed. *)
Definition new_Todo (i : TodoInit) : Draft :=
  {| draft_title := init_title i;
     draft_description := default "" (init_description i);
     draft_completed := false;
     draft_priority := default "medium" (init_priority i);
     draft_dueDate := init_dueDate i;
     draft_user := init_user i |}.

(** Modelled from the spec: the schema's validators ([models/Todo.js]): a
    title is required (present and not empty) and the priority belongs to
    the enumeration. The result is the message of the validation error. *)
Definition validate (t : option string) (p : string) : option string :=
  if negb (truthy_opt t) then Some "Todo validation failed: title: Path `title` is required."
  else if bool_decide (p ∈ priorities) then None
  else Some "Todo validation failed: priority: not a valid enum value for path `priority`.".

(** The collection: the documents in insertion order and the next fresh
    identifier. *)
Record Collection := mkCollection {
  docs : list Todo;
  next_id : ObjectId
}.

(** [Todo.find({ user })]. *)
Definition Todo_find (u : ObjectId) (c : Collection) : list Todo :=
  filter (λ d, user d = u) (docs c).

(** [Todo.findOne({ _id, user })]. *)
Definition Todo_findOne (id u : ObjectId) (c : Collection) : option Todo :=
  List.find (λ d, bool_decide (_id d = id ∧ user d = u)) (docs c).

(** [.sort({ createdAt: -1 })]: newest first; documents with equal keys keep
    their order. *)
Fixpoint insert_desc (t : Todo) (l : list Todo) : list Todo :=
  match l with
  | [] => [t]
  | x :: l' =>
      if createdAt x <=? createdAt t then t :: l else x :: insert_desc t l'
  end.

Definition sort_createdAt_desc (l : list Todo) : list Todo :=
  foldr insert_desc [] l.

(** The order of a list sorted that way: no element is older than the next. *)
Definition newer_first (a b : Todo) : Prop := createdAt b ≤ createdAt a.

(** Modelled from the spec: the schema's timestamps ([models/Todo.js]): a
    document is inserted with both timestamps at the time of the save. *)
Definition inserted (now : Z) (id : ObjectId) (d : Draft) : Todo :=
  {| _id := id;
     title := default "" (draft_title d);
     description := draft_description d;
     completed := draft_completed d;
     priority := draft_priority d;
     dueDate := draft_dueDate d;
     user := draft_user d;
     createdAt := now;
     updatedAt := now |}.

(** Modelled from the spec: the schema's timestamps ([models/Todo.js]): a
    later save moves the update time and nothing else. *)
Definition touch (now : Z) (t : Todo) : Todo :=
  {| _id := _id t; title := title t; description := description t;
     completed := completed t; priority := priority t; dueDate := dueDate t;
     user := user t; createdAt := createdAt t; updatedAt := now |}.

(** [todo.save()] on a new document: the validators run, then the document
    is inserted under a fresh identifier. A validation error rejects the
    save and stores nothing. *)
Definition save_new (now : Z) (d : Draft) (c : Collection)
  : outcome Todo * Collection :=
  match validate (draft_title d) (draft_priority d) with
  | Some msg => (Throw (mkError msg), c)
  | None =>
      let t := inserted now (next_id c) d in
      (Return t, {| docs := docs c ++ [t]; next_id := S (next_id c) |})
  end.

(** [todo.save()] on a document loaded from the collection: the validators
    run, then the stored document with the same identifier is replaced. *)
Definition replace_doc (t : Todo) (l : list Todo) : list Todo :=
  (λ d, if bool_decide (_id d = _id t) then t else d) <$> l.

Definition save (now : Z) (t : Todo) (c : Collection)
  : outcome Todo * Collection :=
  match validate (Some (title t)) (priority t) with
  | Some msg => (Throw (mkError msg), c)
  | None =>
      let t' := touch now t in
      (Return t', {| docs := replace_doc t' (docs c); next_id := next_id c |})
  end.

(** [Todo.findByIdAndDelete(id)]: the first document with that identifier
    is removed, whoever owns it. *)
Fixpoint delete_first (id : ObjectId) (l : list Todo) : list Todo :=
  match l with
  | [] => []
  | d :: l' => if bool_decide (_id d = id) then l' else d :: delete_first id l'
  end.

Definition Todo_findByIdAndDelete (id : ObjectId) (c : Collection) : Collection :=
  {| docs := delete_first id (docs c); next_id := next_id c |}.

(** *** Requests and responses *)

(** [req.body] of the create handler, fields as in [CreateTodoData]; [None]
    is an absent field. *)
Record CreateBody := mkCreateBody {
  create_title : option string;
  create_description : option string;
  create_priority : option string;
  create_dueDate : option string
}.

(** [req.body] of the update handler, fields as in [UpdateTodoData]. *)
Record UpdateBody := mkUpdateBody {
  update_title : option string;
  update_description : option string;
  update_completed : option bool;
  update_priority : option string;
  update_dueDate : option string
}.

(** What [res.json] is given. *)
Inductive Json :=
| JTodos (l : list Todo)
| JTodo (t : Todo)
| JMessage (m : string)
| JServerError (m : string) (error : string).

Record Response := mkResponse { status : nat; json : Json }.

Definition server_error (e : Error) : Response :=
  mkResponse 500 (JServerError "Server error" (message e)).

Definition not_found : Response :=
  mkResponse 404 (JMessage "Todo not found").

(** *** The handlers, run after the [auth] middleware has put the token's
    user in [req.user]; [caller] is [req.user._id]. *)

(** [router.get('/')] *)
Definition router_get (caller : ObjectId) (c : Collection) : Response :=
  let todos := sort_createdAt_desc (Todo_find caller c) in
  mkResponse 200 (JTodos todos).

(** [router.post('/')] *)
Definition router_post (now : Z) (caller : ObjectId) (body : CreateBody)
    (c : Collection) : Response * Collection :=
  let todo := new_Todo
    {| init_title := create_title body;
       init_description := create_description body;
       init_priority := create_priority body;
       init_dueDate :=
         match create_dueDate body with
         | Some s => if truthy s then Some (newDate s) else None
         | None => None
         end;
       init_user := caller |} in
  match save_new now todo c with
  | (Return saved, c') => (mkResponse 201 (JTodo saved), c')
  | (Throw error, c') => (server_error error, c')
  end.

(** The five assignments of the update handler. *)
Definition assign_fields (body : UpdateBody) (todo : Todo) : Todo :=
  {| _id := _id todo;
     title := or_else (update_title body) (title todo);
     description :=
       match update_description body with
       | Some s => s
       | None => description todo
       end;
     completed :=
       match update_completed body with
       | Some b => b
       | None => completed todo
       end;
     priority := or_else (update_priority body) (priority todo);
     dueDate :=
       match update_dueDate body with
       | Some s => if truthy s then Some (newDate s) else dueDate todo
       | None => dueDate todo
       end;
     user := user todo;
     createdAt := createdAt todo;
     updatedAt := updatedAt todo |}.

(** [router.put('/:id')] *)
Definition router_put (now : Z) (caller id : ObjectId) (body : UpdateBody)
    (c : Collection) : Response * Collection :=
  match Todo_findOne id caller c with
  | None => (not_found, c)
  | Some todo =>
      match save now (assign_fields body todo) c with
      | (Return saved, c') => (mkResponse 200 (JTodo saved), c')
      | (Throw error, c') => (server_error error, c')
      end
  end.

(** [router.delete('/:id')] *)
Definition router_delete (caller id : ObjectId) (c : Collection)
  : Response * Collection :=
  match Todo_findOne id caller c with
  | None => (not_found, c)
  | Some _ =>
      (mkResponse 200 (JMessage "Todo deleted successfully"),
       Todo_findByIdAndDelete id c)
  end.

(** The document the create handler stores when validation passes. *)
Definition created_todo (now : Z) (caller : ObjectId) (body : CreateBody)
    (c : Collection) : Todo :=
  {| _id := next_id c;
     title := default "" (create_title body);
     description := default "" (create_description body);
     completed := false;
     priority := default "medium" (create_priority body);
     dueDate :=
       match create_dueDate body with
       | Some s => if truthy s then Some (newDate s) else None
       | None => None
       end;
     user := caller;
     createdAt := now;
     updatedAt := now |}.

(** *** The router: one authenticated request at a time *)

Inductive Request :=
| GET (caller : ObjectId)
| POST (now : Z) (caller : ObjectId) (body : CreateBody)
| PUT (now : Z) (caller id : ObjectId) (body : UpdateBody)
| DELETE (caller id : ObjectId).

Definition caller_of (r : Request) : ObjectId :=
  match r with
  | GET caller | POST _ caller _ | PUT _ caller _ _ | DELETE caller _ => caller
  end.

Definition handle (r : Request) (c : Collection) : Response * Collection :=
  match r with
  | GET caller => (router_get caller c, c)
  | POST now caller body => router_post now caller body c
  | PUT now caller id body => router_put now caller id body c
  | DELETE caller id => router_delete caller id c
  end.

(** The collection after a sequence of requests. *)
Definition serve (rs : list Request) (c : Collection) : Collection :=
  foldl (λ c r, (handle r c).2) c rs.

(** *** Well-formed collections *)

(** Identifiers are unique and below the next fresh one, and every stored
    document passed the schema's validators. *)
Record wf (c : Collection) : Prop := mkWf {
  wf_nodup : NoDup (_id <$> docs c);
  wf_fresh : Forall (λ d, (_id d < next_id c)%nat) (docs c);
  wf_valid : Forall (λ d, validate (Some (title d)) (priority d) = None) (docs c)
}.

(** *** Sample data *)

Definition alice : ObjectId := 1%nat.
Definition bob : ObjectId := 2%nat.

Definition groceries : Todo :=
  {| _id := 0%nat; title := "Buy milk"; description := ""; completed := false;
     priority := "medium"; dueDate := None; user := alice;
     createdAt := 1000; updatedAt := 1000 |}.

Definition one_todo : Collection := {| docs := [groceries]; next_id := 1%nat |}.

Definition only_completed : UpdateBody :=
  {| update_title := None; update_description := None;
     update_completed := Some true; update_priority := None;
     update_dueDate := None |}.

Definition untitled : CreateBody :=
  {| create_title := Some ""; create_description := None;
     create_priority := None; create_dueDate := None |}.

Definition only_title (s : string) : CreateBody :=
  {| create_title := Some s; create_description := None;
     create_priority := None; create_dueDate := None |}.

Definition no_todos : Collection := {| docs := []; next_id := 0%nat |}.

Definition after_one : Collection :=
  (router_post 10 bob (only_title "one") no_todos).2.
Definition after_two : Collection :=
  (router_post 20 bob (only_title "two") after_one).2.
Definition after_three : Collection :=
  (router_post 30 bob (only_title "three") after_two).2.

Definition falsy_fields : UpdateBody :=
  {| update_title := Some ""; update_description := Some "";
     update_completed := Some false; update_priority := Some "";
     update_dueDate := Some "" |}.

Definition dentist : Todo :=
  {| _id := 0%nat; title := "Dentist"; description := "check-up";
     completed := true; priority := "high";
     dueDate := Some (newDate "2025-03-01"); user := alice;
     createdAt := 1000; updatedAt := 1500 |}.

Definition one_dated_todo : Collection := {| docs := [dentist]; next_id := 1%nat |}.

End Server.

(** ** The client: [src/services/api.ts] and [src/contexts/AuthContext.tsx] *)

Module Client.

(** Modelled from the spec: [User] of [types/auth.ts], which is not among the
    sources: the public profile of a user. *)
Record User := mkUser { id : string; name : string; email : string }.

(** Modelled from the spec: [LoginData] of [types/auth.ts], the body of a
    login request. *)
Record LoginData := mkLoginData {
  login_email : string;
  login_password : string
}.

(** Modelled from the spec: [RegisterData] of [types/auth.ts], the body of a
    registration request. *)
Record RegisterData := mkRegisterData {
  register_email : string;
  register_password : string;
  register_name : string
}.

(** Modelled from the spec: [AuthResponse] of [types/auth.ts], the answer to
    a successful login or registration: [response.user], [response.token]. *)
Record AuthResponse := mkAuthResponse {
  response_user : User;
  response_token : string
}.

(** Modelled from the spec: [AuthState] of [types/auth.ts], the session;
    [None] is [null]. *)
Record AuthState := mkAuthState {
  user : option User;
  token : option string;
  isLoading : bool
}.

(** The state [useState] starts with, and the state every failure and
    [logout] end in. *)
Definition initializing : AuthState :=
  {| user := None; token := None; isLoading := true |}.

Definition anonymous : AuthState :=
  {| user := None; token := None; isLoading := false |}.

(** *** What the device and the network hold *)

(** The key-value store of the device and the state of the provider. *)
Record World := mkWorld {
  AsyncStorage : gmap string string;
  authState : AuthState
}.

(** The body of an error answer: [error.message] may be absent. *)
Record ErrorBody := mkErrorBody { error_message : option string }.

(** A [fetch] that resolved: [response.ok] and what [response.json()]
    resolves to (or rejects with). *)
Inductive HttpResponse (A : Type) : Type :=
| Ok (json : outcome A)
| NotOk (json : outcome ErrorBody).
Arguments Ok {A} json.
Arguments NotOk {A} json.

Record Headers := mkHeaders {
  content_type : string;
  authorization : option string
}.

(** The server as the client sees it: one answer per request; [Throw] is a
    [fetch] that rejected (no network). *)
Record Network := mkNetwork {
  fetch_login : LoginData → outcome (HttpResponse AuthResponse);
  fetch_register : RegisterData → outcome (HttpResponse AuthResponse);
  fetch_me : Headers → outcome (HttpResponse User)
}.

(** *** Asynchronous code: state, exceptions and the history of writes *)

(** A computation runs in a world and gives a result or an exception, the
    world it leaves, and the worlds it went through, one per write, oldest
    first. *)
Definition M (A : Type) : Type := World → outcome A * World * list World.

Definition ret {A} (a : A) : M A := λ w, (Return a, w, []).

Definition bind {A B} (m : M A) (k : A → M B) : M B := λ w,
  match m w with
  | (Return a, w1, h1) =>
      match k a w1 with
      | (r, w2, h2) => (r, w2, h1 ++ h2)
      end
  | (Throw e, w1, h1) => (Throw e, w1, h1)
  end.

Definition throw {A} (e : Error) : M A := λ w, (Throw e, w, []).

(** [try { m } catch (error) { handler }] *)
Definition try_catch {A} (m : M A) (handler : Error → M A) : M A := λ w,
  match m w with
  | (Return a, w1, h1) => (Return a, w1, h1)
  | (Throw e, w1, h1) =>
      match handler e w1 with
      | (r, w2, h2) => (r, w2, h1 ++ h2)
      end
  end.

(** [await p] for a promise of the outside world. *)
Definition await {A} (p : outcome A) : M A := λ w, (p, w, []).

Notation "x <- m ;; k" := (bind m (λ x, k))
  (at level 100, m at next level, right associativity).
Notation "m ;;; k" := (bind m (λ _, k))
  (at level 100, right associativity).

Definition write (w' : World) : M unit := λ _, (Return tt, w', [w']).

Definition getItem (key : string) : M (option string) := λ w,
  (Return (AsyncStorage w !! key), w, []).

Definition setItem (key value : string) : M unit := λ w,
  write {| AsyncStorage := <[key := value]> (AsyncStorage w);
           authState := authState w |} w.

Definition removeItem (key : string) : M unit := λ w,
  write {| AsyncStorage := delete key (AsyncStorage w);
           authState := authState w |} w.

Definition setAuthState (s : AuthState) : M unit := λ w,
  write {| AsyncStorage := AsyncStorage w; authState := s |} w.

(** *** [class ApiService] *)

Section ApiService.
Variable net : Network.

Definition getAuthHeaders : M Headers :=
  token <- getItem "token";;
  ret {| content_type := "application/json";
         authorization :=
           match token with
           | Some t => if truthy t then Some ("Bearer " +:+ t) else None
           | None => None
           end |}.

Definition ApiService_login (data : LoginData) : M AuthResponse :=
  response <- await (fetch_login net data);;
  match response with
  | NotOk json =>
      error <- await json;;
      throw (mkError (or_else (error_message error) "Login failed"))
  | Ok json => await json
  end.

Definition ApiService_register (data : RegisterData) : M AuthResponse :=
  response <- await (fetch_register net data);;
  match response with
  | NotOk json =>
      error <- await json;;
      throw (mkError (or_else (error_message error) "Registration failed"))
  | Ok json => await json
  end.

Definition getCurrentUser : M User :=
  headers <- getAuthHeaders;;
  response <- await (fetch_me net headers);;
  match response with
  | NotOk _ => throw (mkError "Failed to get user")
  | Ok json => await json
  end.

(** *** [AuthProvider]

    [console.error] in the handler of [checkAuthState] writes neither to the
    store nor to the session and is left out. *)

Definition checkAuthState : M unit :=
  try_catch
    (token <- getItem "token";;
     if truthy_opt token then
       user <- getCurrentUser;;
       setAuthState {| user := Some user; token := token; isLoading := false |}
     else
       setAuthState {| user := None; token := None; isLoading := false |})
    (λ error,
       removeItem "token";;;
       setAuthState {| user := None; token := None; isLoading := false |}).

Definition login (data : LoginData) : M unit :=
  try_catch
    (response <- ApiService_login data;;
     setItem "token" (response_token response);;;
     setAuthState {| user := Some (response_user response);
                     token := Some (response_token response);
                     isLoading := false |})
    (λ error, throw error).

Definition register (data : RegisterData) : M unit :=
  try_catch
    (response <- ApiService_register data;;
     setItem "token" (response_token response);;;
     setAuthState {| user := Some (response_user response);
                     token := Some (response_token response);
                     isLoading := false |})
    (λ error, throw error).

End ApiService.

Definition logout : M unit :=
  removeItem "token";;;
  setAuthState {| user := None; token := None; isLoading := false |}.

(** *** The view router: [src/app/index.tsx] and [src/app/(tabs)/_layout.tsx] *)

(** What a screen component returns: the loading indicator alone, a
    redirection, or the tab navigator of the authenticated tree. *)
Inductive Element :=
| ActivityIndicator
| Redirect (href : string)
| Tabs.

Definition IndexScreen (auth : AuthState) : Element :=
  if isLoading auth then ActivityIndicator
  else match user auth with
       | Some _ => Redirect "/(tabs)"
       | None => Redirect "/(auth)/login"
       end.

Definition TabLayout (auth : AuthState) : Element :=
  if isLoading auth then ActivityIndicator
  else match user auth with
       | None => Redirect "/(auth)/login"
       | Some _ => Tabs
       end.

(** What a successful login or registration does: the token goes to the
    store, then the session becomes the authenticated one. *)
Definition signed_in (w : World) (r : AuthResponse) : World * list World :=
  let w1 := {| AsyncStorage := <["token" := response_token r]> (AsyncStorage w);
               authState := authState w |} in
  let w2 := {| AsyncStorage := <["token" := response_token r]> (AsyncStorage w);
               authState := {| user := Some (response_user r);
                               token := Some (response_token r);
                               isLoading := false |} |} in
  (w2, [w1; w2]).

(** *** Reading the server's answers, and sample data *)

(** The value a request succeeded with: the fetch resolved, [response.ok]
    held and the body was read. Everything else is a failed request. *)
Definition succeeded {A} (r : outcome (HttpResponse A)) : option A :=
  match r with
  | Return (Ok (Return a)) => Some a
  | _ => None
  end.

(** The headers [getAuthHeaders] builds when the store holds the token [t]. *)
Definition bearer (t : string) : Headers :=
  {| content_type := "application/json";
     authorization := Some ("Bearer " +:+ t) |}.

Definition ann : User :=
  {| id := "u1"; name := "Ann"; email := "ann@example.org" |}.

Definition ann_login : LoginData :=
  {| login_email := "ann@example.org"; login_password := "wrong" |}.

Definition ann_register : RegisterData :=
  {| register_email := "ann@example.org"; register_password := "secret";
     register_name := "Ann" |}.

(** A server that turns every request down: 401 on login and on the
    identity check, 409 without a message on registration. *)
Definition refusing : Network :=
  {| fetch_login := λ _, Return (NotOk (Return (mkErrorBody (Some "Invalid credentials"))));
     fetch_register := λ _, Return (NotOk (Return (mkErrorBody None)));
     fetch_me := λ _, Return (NotOk (Return (mkErrorBody (Some "Token is not valid")))) |}.

(** The device at startup with a stale token in the store. *)
Definition stale_start : World :=
  {| AsyncStorage := {[ "token" := "stale.jwt" ]}; authState := initializing |}.

(** The device with Ann logged in. *)
Definition ann_session : World :=
  {| AsyncStorage := {[ "token" := "ann.jwt" ]};
     authState := {| user := Some ann; token := Some "ann.jwt"; isLoading := false |} |}.

(** The device with nobody logged in. *)
Definition signed_out : World :=
  {| AsyncStorage := ∅; authState := anonymous |}.

End Client.

(** ** The Todo endpoints of the client: [src/services/api.ts] *)

Module TodoApi.
Import Client.

(** The Todo endpoints as the client sees them: one answer per request.
    A Todo in an answer is the JSON of a document and carries its fields. *)
Record TodoNetwork := mkTodoNetwork {
  fetch_todos : Headers → outcome (HttpResponse (list Server.Todo));
  fetch_create :
    Headers → Server.CreateBody → outcome (HttpResponse Server.Todo);
  fetch_update :
    Headers → Server.ObjectId → Server.UpdateBody →
    outcome (HttpResponse Server.Todo);
  fetch_delete : Headers → Server.ObjectId → outcome (HttpResponse unit)
}.

Section ApiService.
Variable net : TodoNetwork.

Definition ApiService_getTodos : M (list Server.Todo) :=
  headers <- getAuthHeaders;;
  response <- await (fetch_todos net headers);;
  match response with
  | NotOk _ => throw (mkError "Failed to fetch todos")
  | Ok json => await json
  end.

Definition ApiService_createTodo (data : Server.CreateBody) : M Server.Todo :=
  headers <- getAuthHeaders;;
  response <- await (fetch_create net headers data);;
  match response with
  | NotOk json =>
      error <- await json;;
      throw (mkError (or_else (error_message error) "Failed to create todo"))
  | Ok json => await json
  end.

Definition ApiService_updateTodo (id : Server.ObjectId)
    (data : Server.UpdateBody) : M Server.Todo :=
  headers <- getAuthHeaders;;
  response <- await (fetch_update net headers id data);;
  match response with
  | NotOk json =>
      error <- await json;;
      throw (mkError (or_else (error_message error) "Failed to update todo"))
  | Ok json => await json
  end.

(** On success the body of the answer is not read. *)
Definition ApiService_deleteTodo (id : Server.ObjectId) : M unit :=
  headers <- getAuthHeaders;;
  response <- await (fetch_delete net headers id);;
  match response with
  | NotOk json =>
      error <- await json;;
      throw (mkError (or_else (error_message error) "Failed to delete todo"))
  | Ok _ => ret tt
  end.

End ApiService.

(** A server that is down for the Todo endpoints: [fetch] rejects. *)
Definition unreachable : TodoNetwork :=
  {| fetch_todos := λ _, Throw (mkError "Network request failed");
     fetch_create := λ _ _, Throw (mkError "Network request failed");
     fetch_update := λ _ _ _, Throw (mkError "Network request failed");
     fetch_delete := λ _ _, Throw (mkError "Network request failed") |}.

(** A server that answers every Todo request with an error without
    message. *)
Definition failing : TodoNetwork :=
  {| fetch_todos := λ _, Return (NotOk (Return (mkErrorBody (Some "Server error"))));
     fetch_create := λ _ _, Return (NotOk (Return (mkErrorBody None)));
     fetch_update := λ _ _ _, Return (NotOk (Return (mkErrorBody (Some ""))));
     fetch_delete := λ _ _, Return (NotOk (Return (mkErrorBody (Some "Todo not found")))) |}.

End TodoApi.

(** ** The screens: [src/app/(tabs)/_layout.tsx] and what follows it *)

Module Screens.

(** What a handler shows or where it goes, besides changing the state of
    its component. *)
Inductive UiEvent :=
| Alert (title message : string)
| Navigate (href : string).

(** The calls a screen makes on [ApiService], each with the outcome of the
    awaited promise. *)
Record Api := mkApi {
  getTodos : outcome (list Server.Todo);
  createTodo : Server.CreateBody → outcome Server.Todo;
  updateTodo : Server.ObjectId → Server.UpdateBody → outcome Server.Todo;
  deleteTodo : Server.ObjectId → outcome unit
}.

(** [ApiService] on a network and a device. *)
Definition api_on (net : TodoApi.TodoNetwork) (w : Client.World) : Api :=
  {| getTodos := (TodoApi.ApiService_getTodos net w).1.1;
     createTodo := λ data, (TodoApi.ApiService_createTodo net data w).1.1;
     updateTodo := λ id data, (TodoApi.ApiService_updateTodo net id data w).1.1;
     deleteTodo := λ id, (TodoApi.ApiService_deleteTodo net id w).1.1 |}.

(** *** [TodoListScreen] *)

Record ListState := mkListState {
  todos : list Server.Todo;
  loading : bool;
  refreshing : bool
}.

Definition list_start : ListState :=
  {| todos := []; loading := true; refreshing := false |}.

Definition loadTodos (api : Api) (s : ListState) : ListState * list UiEvent :=
  match getTodos api with
  | Return todosData =>
      ({| todos := todosData; loading := false; refreshing := refreshing s |}, [])
  | Throw _ =>
      ({| todos := todos s; loading := false; refreshing := refreshing s |},
       [Alert "Error" "Failed to load todos"])
  end.

Definition handleRefresh (api : Api) (s : ListState) : ListState * list UiEvent :=
  let s1 := {| todos := todos s; loading := loading s; refreshing := true |} in
  let '(s2, events) := loadTodos api s1 in
  ({| todos := todos s2; loading := loading s2; refreshing := false |}, events).

(** [todos.map(t => t._id === todo._id ? updatedTodo : t)] *)
Definition put_in_list (todo updatedTodo : Server.Todo) (l : list Server.Todo)
  : list Server.Todo :=
  (λ t, if bool_decide (Server._id t = Server._id todo) then updatedTodo else t) <$> l.

(** [todos.filter(t => t._id !== todoId)] *)
Definition drop_from_list (todoId : Server.ObjectId) (l : list Server.Todo)
  : list Server.Todo :=
  filter (λ t, Server._id t ≠ todoId) l.

(** The body [toggleTodo] sends. *)
Definition toggle_body (todo : Server.Todo) : Server.UpdateBody :=
  {| Server.update_title := None; Server.update_description := None;
     Server.update_completed := Some (negb (Server.completed todo));
     Server.update_priority := None; Server.update_dueDate := None |}.

Definition toggleTodo (api : Api) (todo : Server.Todo) (s : ListState)
  : ListState * list UiEvent :=
  match updateTodo api (Server._id todo) (toggle_body todo) with
  | Return updatedTodo =>
      ({| todos := put_in_list todo updatedTodo (todos s);
          loading := loading s; refreshing := refreshing s |}, [])
  | Throw _ => (s, [Alert "Error" "Failed to update todo"])
  end.

(** [deleteTodo] asks first; this is the [onPress] of its Delete button. *)
Definition confirmDelete (api : Api) (todoId : Server.ObjectId) (s : ListState)
  : ListState * list UiEvent :=
  match deleteTodo api todoId with
  | Return _ =>
      ({| todos := drop_from_list todoId (todos s);
          loading := loading s; refreshing := refreshing s |}, [])
  | Throw _ => (s, [Alert "Error" "Failed to delete todo"])
  end.

Definition getPriorityColor (priority : string) : string :=
  if String.eqb priority "high" then "#ef4444"
  else if String.eqb priority "medium" then "#f59e0b"
  else if String.eqb priority "low" then "#10b981"
  else "#6b7280".

(** *** [AddTodoScreen] *)

(** The choices of the form: value, label and colour. *)
Definition add_priorities : list (string * string * string) :=
  [("low", "Low", "#10b981");
   ("medium", "Medium", "#f59e0b");
   ("high", "High", "#ef4444")].

(** [CreateTodoData] as the form holds it: the title is always a string. *)
Record FormData := mkFormData {
  form_title : string;
  form_description : option string;
  form_priority : option string;
  form_dueDate : option string
}.

Record AddState := mkAddState {
  formData : FormData;
  isLoading : bool
}.

Definition empty_form : FormData :=
  {| form_title := ""; form_description := Some "";
     form_priority := Some "medium"; form_dueDate := None |}.

(** The [onPress] of a priority button. *)
Definition choose_priority (value : string) (s : AddState) : AddState :=
  {| formData :=
       {| form_title := form_title (formData s);
          form_description := form_description (formData s);
          form_priority := Some value;
          form_dueDate := form_dueDate (formData s) |};
     isLoading := isLoading s |}.

Section AddTodoScreen.

(** [String.prototype.trim], a built-in of the language. *)
Variable trim : string → string.

(** The object given to [ApiService.createTodo]. *)
Definition submitted (f : FormData) : Server.CreateBody :=
  {| Server.create_title := Some (trim (form_title f));
     Server.create_description := trim <$> form_description f;
     Server.create_priority := form_priority f;
     Server.create_dueDate := form_dueDate f |}.

(** [handleSubmit]: the state it leaves, what it shows, and the request it
    made, if any. *)
Definition handleSubmit (api : Api) (s : AddState)
  : AddState * list UiEvent * option Server.CreateBody :=
  if negb (truthy (trim (form_title (formData s)))) then
    (s, [Alert "Error" "Please enter a title for your todo"], None)
  else
    let data := submitted (formData s) in
    match createTodo api data with
    | Return _ =>
        ({| formData := formData s; isLoading := false |},
         [Alert "Success" "Todo created successfully!"], Some data)
    | Throw error =>
        ({| formData := formData s; isLoading := false |},
         [Alert "Error" (or_else (Some (message error)) "Failed to create todo")],
         Some data)
    end.

End AddTodoScreen.

(** The [onPress] of the OK button of the success notice. *)
Definition onPressOK (s : AddState) : AddState * list UiEvent :=
  ({| formData := empty_form; isLoading := isLoading s |}, [Navigate "/(tabs)"]).

(** *** Sample data *)

(** Trimming of spaces only, for the examples. *)
Fixpoint drop_spaces (s : string) : string :=
  match s with
  | String a s' => if Ascii.eqb a Ascii.Space then drop_spaces s' else s
  | EmptyString => s
  end.

Definition trim_spaces (s : string) : string :=
  String.rev (drop_spaces (String.rev (drop_spaces s))).


Definition milk_form : AddState :=
  {| formData := {| form_title := " Buy milk "; form_description := Some " 2 l ";
                    form_priority := Some "high"; form_dueDate := None |};
     isLoading := false |}.

End Screens.

(** ** Sample requests *)

Module ServerSamples.
Import Server.

Definition renamed : UpdateBody :=
  {| update_title := Some "Buy bread"; update_description := None;
     update_completed := None; update_priority := Some "low";
     update_dueDate := Some "2025-04-01" |}.

(** Bob creates a Todo, then tries his hand at the identifier of Alice's. *)
Definition bobs_requests : list Request :=
  [POST 2000 bob (only_title "Call Ann");
   PUT 2100 bob 0%nat renamed;
   DELETE bob 0%nat;
   GET bob].

(** Alice changes her Todo and creates another. *)
Definition alices_requests : list Request :=
  [PUT 2000 alice 0%nat renamed;
   POST 2100 alice (only_title "Call Bob");
   PUT 2200 alice 0%nat only_completed].

End ServerSamples.

(** ** Sample screens *)

Module ScreenSamples.
Import Server Screens.

(** The calls of a screen answered by the handlers themselves, for a caller
    whose token the server accepts: an answer that is not 2xx makes the call
    throw. *)
Definition served_by (now : Z) (caller : ObjectId) (c : Collection) : Api :=
  {| getTodos :=
       match json (router_get caller c) with
       | JTodos l => Return l
       | _ => Throw (mkError "Failed to fetch todos")
       end;
     createTodo := λ data,
       match json (router_post now caller data c).1 with
       | JTodo t => Return t
       | _ => Throw (mkError "Server error")
       end;
     updateTodo := λ id data,
       match json (router_put now caller id data c).1 with
       | JTodo t => Return t
       | JMessage m => Throw (mkError m)
       | _ => Throw (mkError "Server error")
       end;
     deleteTodo := λ id,
       match status (router_delete caller id c).1 with
       | 200%nat => Return tt
       | _ => Throw (mkError "Todo not found")
       end |}.

(** The list screen of Alice after loading. *)
Definition groceries_shown : ListState :=
  {| todos := [groceries]; loading := false; refreshing := false |}.

End ScreenSamples.

(** ** The session and the store together *)

Module Session.
Import Client.

(** The session never holds a token the store does not hold. *)
Definition in_step (w : World) : Prop :=
  ∀ t, token (authState w) = Some t → AsyncStorage w !! "token" = Some t.

(** A server that knows Ann: it answers login and registration with her
    profile and a token, and the identity check with her profile. *)
Definition welcoming : Network :=
  {| fetch_login := λ _, Return (Ok (Return (mkAuthResponse ann "ann.jwt")));
     fetch_register := λ _, Return (Ok (Return (mkAuthResponse ann "ann.jwt")));
     fetch_me := λ _, Return (Ok (Return ann)) |}.

(** The device with nobody logged in and a setting of another part of the
    application in the store. *)
Definition themed : World :=
  {| AsyncStorage := {[ "theme" := "dark" ]}; authState := anonymous |}.

End Session.

(** * Properties *)

(** ** Truthiness *)

Lemma truthy_true s : truthy s = true ↔ s ≠ "".
Proof. destruct s; simpl; split; congruence. Qed.

Lemma truthy_false s : truthy s = false ↔ s = "".
Proof. destruct s; simpl; split; congruence. Qed.

(** ** The handlers of the Todo collection *)

Module ServerProofs.
Import Server.

(** *** Lookups in a collection with unique identifiers *)

Lemma same_id_same_doc (l : list Todo) (x y : Todo) :
  NoDup (_id <$> l) → x ∈ l → y ∈ l → _id x = _id y → x = y.
Proof.
  induction l as [|d l IH]; intros Hnd Hx Hy Hid.
  - by apply elem_of_nil in Hx.
  - rewrite fmap_cons in Hnd. apply NoDup_cons in Hnd as [Hd Hnd].
    apply elem_of_cons in Hx as [->|Hx]; apply elem_of_cons in Hy as [->|Hy].
    + done.
    + exfalso. apply Hd. rewrite Hid. by apply list_elem_of_fmap_2.
    + exfalso. apply Hd. rewrite <- Hid. by apply list_elem_of_fmap_2.
    + by apply IH.
Qed.

Lemma find_elem_of {A} (p : A → bool) (l : list A) (x : A) :
  List.find p l = Some x → x ∈ l ∧ p x = true.
Proof.
  induction l as [|a l IH]; simpl; [done|].
  destruct (p a) eqn:Hp.
  - intros [= ->]. split; [left | done].
  - intros H. destruct (IH H). split; [by right | done].
Qed.

Lemma find_none_iff {A} (p : A → bool) (l : list A) :
  List.find p l = None ↔ ∀ x, x ∈ l → p x = false.
Proof.
  induction l as [|a l IH]; simpl.
  - split; [|done]. intros _ x Hx. by apply elem_of_nil in Hx.
  - destruct (p a) eqn:Hp.
    + split; [done|]. intros H. specialize (H a (list_elem_of_here _ _)). congruence.
    + rewrite IH. split.
      * intros H x [->|Hx]%elem_of_cons; auto.
      * intros H x Hx. apply H. by right.
Qed.

Lemma findOne_other_owner c t caller :
  NoDup (_id <$> docs c) → t ∈ docs c → user t ≠ caller →
  Todo_findOne (_id t) caller c = None.
Proof.
  intros Hnd Ht Hne. unfold Todo_findOne. apply find_none_iff.
  intros d Hd. apply bool_decide_eq_false. intros [Hid Hu].
  assert (d = t) by eauto using same_id_same_doc. congruence.
Qed.

Lemma findOne_unknown_id c id caller :
  id ∉ _id <$> docs c → Todo_findOne id caller c = None.
Proof.
  intros Hid. unfold Todo_findOne. apply find_none_iff.
  intros d Hd. apply bool_decide_eq_false. intros [<- _].
  apply Hid. by apply list_elem_of_fmap_2.
Qed.

Lemma findOne_owned c t :
  NoDup (_id <$> docs c) → t ∈ docs c →
  Todo_findOne (_id t) (user t) c = Some t.
Proof.
  intros Hnd Ht. unfold Todo_findOne.
  destruct (List.find _ _) as [d|] eqn:Hf.
  - apply find_elem_of in Hf as [Hd Hp].
    apply bool_decide_eq_true in Hp as [Hid _].
    f_equal. eauto using same_id_same_doc.
  - rewrite find_none_iff in Hf. specialize (Hf t Ht).
    apply bool_decide_eq_false in Hf. by destruct Hf.
Qed.

(** *** Sorting by creation time *)

Lemma insert_desc_perm t l : insert_desc t l ≡ₚ t :: l.
Proof.
  induction l as [|x l IH]; simpl; [done|].
  destruct (createdAt x <=? createdAt t); [done|].
  rewrite IH. apply Permutation_swap.
Qed.

Lemma sort_createdAt_desc_perm l : sort_createdAt_desc l ≡ₚ l.
Proof.
  induction l as [|x l IH]; simpl; [done|].
  by rewrite insert_desc_perm, IH.
Qed.

Lemma insert_desc_hd t l x :
  HdRel newer_first x l → createdAt t ≤ createdAt x →
  HdRel newer_first x (insert_desc t l).
Proof.
  intros Hl Ht. destruct l as [|y l]; simpl.
  - by constructor.
  - destruct (createdAt y <=? createdAt t); constructor; try done.
    by inversion Hl.
Qed.

Lemma insert_desc_sorted t l :
  Sorted newer_first l → Sorted newer_first (insert_desc t l).
Proof.
  induction 1 as [|x l Hs IH Hhd]; simpl.
  - by repeat constructor.
  - destruct (Z.leb_spec (createdAt x) (createdAt t)).
    + constructor; [by constructor|]. by constructor.
    + constructor; [done|]. apply insert_desc_hd; [done|]. lia.
Qed.

Lemma sort_createdAt_desc_sorted l : Sorted newer_first (sort_createdAt_desc l).
Proof.
  induction l as [|x l IH]; simpl; [constructor|].
  by apply insert_desc_sorted.
Qed.

(** *** Ownership *)

(** C1. A Todo owned by one user cannot be updated or deleted by a caller
    authenticated as another user: both handlers answer 404 "Todo not found"
    and the collection, hence the record, is left as it was. The answer is
    the one given for an identifier that no document has, so the two cases
    cannot be told apart. *)
Theorem foreign_todo_not_found (c : Collection) (t : Todo) (caller : ObjectId)
    (now : Z) (body : UpdateBody) :
  NoDup (_id <$> docs c) →
  t ∈ docs c →
  user t ≠ caller →
  router_put now caller (_id t) body c = (not_found, c) ∧
  router_delete caller (_id t) c = (not_found, c) ∧
  ∀ unknown, unknown ∉ _id <$> docs c →
    router_put now caller unknown body c = router_put now caller (_id t) body c ∧
    router_delete caller unknown c = router_delete caller (_id t) c.
Proof.
  intros Hnd Ht Hne.
  pose proof (findOne_other_owner c t caller Hnd Ht Hne) as Hf.
  unfold router_put, router_delete. rewrite Hf.
  repeat split; try done;
    by rewrite (findOne_unknown_id c unknown caller).
Qed.

Lemma foreign_todo_not_found_witness :
  router_put 2000 bob 0%nat only_completed one_todo = (not_found, one_todo) ∧
  router_delete bob 0%nat one_todo = (not_found, one_todo) ∧
  ∀ unknown, unknown ∉ _id <$> docs one_todo →
    router_put 2000 bob unknown only_completed one_todo
      = router_put 2000 bob 0%nat only_completed one_todo ∧
    router_delete bob unknown one_todo = router_delete bob 0%nat one_todo.
Proof.
  apply (foreign_todo_not_found one_todo groceries bob 2000 only_completed).
  - simpl. apply NoDup_singleton.
  - simpl. apply list_elem_of_here.
  - simpl. unfold alice, bob. lia.
Defined.

(** *** Creating *)

Lemma router_post_cases now caller body c :
  (∃ msg,
     validate (create_title body) (default "medium" (create_priority body)) = Some msg ∧
     router_post now caller body c = (server_error (mkError msg), c)) ∨
  (validate (create_title body) (default "medium" (create_priority body)) = None ∧
   router_post now caller body c =
     (mkResponse 201 (JTodo (created_todo now caller body c)),
      {| docs := docs c ++ [created_todo now caller body c];
         next_id := S (next_id c) |})).
Proof.
  unfold router_post, save_new, new_Todo; simpl.
  destruct (validate _ _) as [msg|] eqn:Hv; [left; eauto | right; eauto].
Qed.

Lemma router_post_201 now caller body c T c' :
  router_post now caller body c = (mkResponse 201 (JTodo T), c') →
  T = created_todo now caller body c ∧ docs c' = docs c ++ [T] ∧
  next_id c' = S (next_id c).
Proof.
  destruct (router_post_cases now caller body c) as [(msg & _ & ->)|[_ ->]].
  - discriminate.
  - intros [= <- <-]. done.
Qed.

(** *** Listing *)

Lemma sort_newest_last (l : list Todo) (x : Todo) :
  Forall (λ d, createdAt d < createdAt x) l →
  sort_createdAt_desc (l ++ [x]) = x :: sort_createdAt_desc l.
Proof.
  induction 1 as [|a l Ha _ IH]; simpl; [done|].
  rewrite IH. simpl.
  destruct (Z.leb_spec (createdAt x) (createdAt a)); [lia | done].
Qed.

Lemma find_after_post now caller body c T c' :
  router_post now caller body c = (mkResponse 201 (JTodo T), c') →
  Todo_find caller c' = Todo_find caller c ++ [T] ∧ createdAt T = now.
Proof.
  intros (-> & Hd & _)%router_post_201. unfold Todo_find. rewrite Hd.
  rewrite filter_app, filter_cons_True by done. done.
Qed.

(** C2. The list handler answers 200 with exactly the caller's Todos, newest
    first. In particular, when three Todos are created one after the other,
    at increasing times and all later than what the caller already had, the
    list starts with the third, the second and the first, in that order. *)
Theorem list_owned_newest_first (caller : ObjectId) (c : Collection) :
  ∃ todos,
    router_get caller c = mkResponse 200 (JTodos todos) ∧
    (∀ t, t ∈ todos ↔ t ∈ docs c ∧ user t = caller) ∧
    todos ≡ₚ filter (λ d, user d = caller) (docs c) ∧
    Sorted newer_first todos ∧
    ∀ t1 t2 t3 b1 b2 b3 T1 T2 T3 c1 c2 c3,
      Forall (λ d, createdAt d < t1) (Todo_find caller c) →
      t1 < t2 → t2 < t3 →
      router_post t1 caller b1 c = (mkResponse 201 (JTodo T1), c1) →
      router_post t2 caller b2 c1 = (mkResponse 201 (JTodo T2), c2) →
      router_post t3 caller b3 c2 = (mkResponse 201 (JTodo T3), c3) →
      router_get caller c3 = mkResponse 200 (JTodos (T3 :: T2 :: T1 :: todos)).
Proof.
  exists (sort_createdAt_desc (Todo_find caller c)).
  split; [done|]. split; [|split; [|split]].
  - intros t. rewrite sort_createdAt_desc_perm. unfold Todo_find.
    by rewrite list_elem_of_filter, (comm and).
  - apply sort_createdAt_desc_perm.
  - apply sort_createdAt_desc_sorted.
  - intros t1 t2 t3 b1 b2 b3 T1 T2 T3 c1 c2 c3 Hold H12 H23 P1 P2 P3.
    apply find_after_post in P1 as [F1 E1].
    apply find_after_post in P2 as [F2 E2].
    apply find_after_post in P3 as [F3 E3].
    unfold router_get. rewrite F3, F2, F1. do 3 f_equal.
    rewrite !sort_newest_last; [done|..].
    + rewrite E1. done.
    + rewrite Forall_app, Forall_singleton, E2, E1. split; [|done].
      eapply Forall_impl; [exact Hold|]. simpl. intros; lia.
    + rewrite !Forall_app, !Forall_singleton, E3, E2, E1.
      split; [split|]; [|lia..].
      eapply Forall_impl; [exact Hold|]. simpl. intros; lia.
Qed.

Lemma list_owned_newest_first_witness :
  router_get bob after_three =
    mkResponse 200 (JTodos [created_todo 30 bob (only_title "three") after_two;
                            created_todo 20 bob (only_title "two") after_one;
                            created_todo 10 bob (only_title "one") no_todos]).
Proof.
  destruct (list_owned_newest_first bob no_todos) as (todos & Hget & _ & _ & _ & H).
  injection Hget as <-.
  apply (H 10 20 30 (only_title "one") (only_title "two") (only_title "three")
           _ _ _ after_one after_two after_three);
    [constructor | lia | lia | reflexivity..].
Defined.

(** *** Creating: validation and defaults *)

Lemma validate_untitled (t : option string) (p : string) :
  truthy_opt t = false → is_Some (validate t p).
Proof. intros H. unfold validate. rewrite H. simpl. eauto. Qed.

(** The create handler has two answers only: 201 and 500. *)
Lemma router_post_status now caller body c :
  status (router_post now caller body c).1 = 201%nat ∨
  status (router_post now caller body c).1 = 500%nat.
Proof.
  destruct (router_post_cases now caller body c) as [(msg & _ & ->)|[_ ->]];
    simpl; auto.
Qed.

(** C3, as stated, fails: a create request with an empty title is not
    answered with status 400. *)
Lemma create_untitled_not_400 :
  ¬ (truthy_opt (create_title untitled) = false →
     status (router_post 2000 alice untitled one_todo).1 = 400%nat ∧
     (router_post 2000 alice untitled one_todo).2 = one_todo).
Proof. intros H. destruct (H eq_refl) as [H400 _]. vm_compute in H400. lia. Qed.

(** C3, amended. A create request whose title is missing or empty fails and
    creates no Todo; the failure is reported as the generic server error,
    status 500 with message "Server error", and the error field of the
    answer is the message of the validation error of the schema. *)
Theorem create_untitled_rejected now caller body c :
  truthy_opt (create_title body) = false →
  ∃ error,
    validate (create_title body) (default "medium" (create_priority body))
      = Some error ∧
    router_post now caller body c =
      (mkResponse 500 (JServerError "Server error" error), c).
Proof.
  intros Ht.
  destruct (router_post_cases now caller body c) as [(msg & Hv & ->)|[Hv _]].
  - by exists msg.
  - destruct (validate_untitled (create_title body)
                (default "medium" (create_priority body)) Ht) as [msg Hm].
    congruence.
Qed.

Lemma create_untitled_rejected_witness :
  ∃ error,
    validate (create_title untitled) (default "medium" (create_priority untitled))
      = Some error ∧
    router_post 2000 alice untitled one_todo =
      (mkResponse 500 (JServerError "Server error" error), one_todo).
Proof. apply (create_untitled_rejected 2000 alice untitled one_todo). reflexivity. Defined.

(** C4. The record a successful create returns is owned by the caller, is
    not completed, carries the time of creation in both timestamps, has
    priority medium when the request gave none and an empty description when
    the request gave none; it is the record added to the collection. *)
Theorem created_todo_defaults now caller body c T c' :
  router_post now caller body c = (mkResponse 201 (JTodo T), c') →
  user T = caller ∧
  completed T = false ∧
  createdAt T = now ∧ updatedAt T = now ∧
  (create_priority body = None → priority T = "medium") ∧
  (create_description body = None → description T = "") ∧
  docs c' = docs c ++ [T].
Proof.
  intros (-> & Hd & _)%router_post_201. simpl.
  repeat split; try done; by intros ->.
Qed.

Lemma created_todo_defaults_witness :
  let T := created_todo 10 bob (only_title "one") no_todos in
  user T = bob ∧
  completed T = false ∧
  createdAt T = 10 ∧ updatedAt T = 10 ∧
  (create_priority (only_title "one") = None → priority T = "medium") ∧
  (create_description (only_title "one") = None → description T = "") ∧
  docs after_one = docs no_todos ++ [T].
Proof.
  apply (created_todo_defaults 10 bob (only_title "one") no_todos _ after_one).
  reflexivity.
Defined.

(** *** Updating *)

(** The update handler on a Todo of the caller: assign, validate, store. *)
Lemma router_put_owned c t now body :
  NoDup (_id <$> docs c) → t ∈ docs c →
  router_put now (user t) (_id t) body c =
    let t' := assign_fields body t in
    match validate (Some (title t')) (priority t') with
    | Some msg => (server_error (mkError msg), c)
    | None =>
        (mkResponse 200 (JTodo (touch now t')),
         {| docs := replace_doc (touch now t') (docs c); next_id := next_id c |})
    end.
Proof.
  intros Hnd Ht. unfold router_put, save. rewrite findOne_owned by done.
  simpl. by destruct (validate _ _).
Qed.

Lemma validate_ok (t p : string) :
  validate (Some t) p = None ↔ t ≠ "" ∧ p ∈ priorities.
Proof.
  unfold validate. simpl. destruct t as [|a t]; simpl.
  - split; [done | by intros [? _]].
  - case_bool_decide; split; try done. by intros [_ ?].
Qed.

Lemma or_else_nonempty (o : option string) (d : string) :
  d ≠ "" → or_else o d ≠ "".
Proof.
  intros Hd. destruct o as [s|]; simpl; [|done].
  destruct (truthy s) eqn:Hs; [by apply truthy_true | done].
Qed.

Lemma or_else_falsy (o : option string) (d : string) :
  truthy_opt o = false → or_else o d = d.
Proof. destruct o as [s|]; simpl; [by intros ->|done]. Qed.

Lemma wf_doc_valid c t : wf c → t ∈ docs c → title t ≠ "" ∧ priority t ∈ priorities.
Proof.
  intros [_ _ Hv] Ht. rewrite Forall_forall in Hv.
  apply validate_ok. by apply Hv.
Qed.

Lemma replace_doc_elem_of (t' : Todo) (l : list Todo) (d : Todo) :
  d ∈ replace_doc t' l →
  d = t' ∨ (d ∈ l ∧ _id d ≠ _id t').
Proof.
  unfold replace_doc. intros (x & -> & Hx)%list_elem_of_fmap.
  case_bool_decide; [by left | by right].
Qed.

Lemma replace_doc_stores (t t' : Todo) (l : list Todo) :
  t ∈ l → _id t' = _id t → t' ∈ replace_doc t' l.
Proof.
  intros Ht Hid. unfold replace_doc. apply list_elem_of_fmap.
  exists t. rewrite bool_decide_eq_true_2 by done. done.
Qed.

Lemma replace_doc_others (t' : Todo) (l : list Todo) (d : Todo) :
  d ∈ l → _id d ≠ _id t' → d ∈ replace_doc t' l.
Proof.
  intros Hd Hid. unfold replace_doc. apply list_elem_of_fmap.
  exists d. rewrite bool_decide_eq_false_2 by done. done.
Qed.

(** C5. On a Todo of the caller, an update whose body is exactly
    [{completed: true}] answers 200 with the Todo in which the completed
    flag is set and the update time is the time of the request, every other
    field being as before, and stores that Todo in place of the old one.
    For every body, a field the body omits has its prior value in the
    answer. *)
Theorem update_keeps_omitted_fields c t now :
  wf c → t ∈ docs c →
  (∃ c',
     router_put now (user t) (_id t) only_completed c =
       (mkResponse 200 (JTodo
          {| _id := _id t; title := title t; description := description t;
             completed := true; priority := priority t; dueDate := dueDate t;
             user := user t; createdAt := createdAt t; updatedAt := now |}), c') ∧
     ∀ d, d ∈ docs c' → _id d = _id t →
       title d = title t ∧ description d = description t ∧ completed d = true ∧
       priority d = priority t ∧ dueDate d = dueDate t) ∧
  ∀ body T c',
    router_put now (user t) (_id t) body c = (mkResponse 200 (JTodo T), c') →
    (update_title body = None → title T = title t) ∧
    (update_description body = None → description T = description t) ∧
    (update_completed body = None → completed T = completed t) ∧
    (update_priority body = None → priority T = priority t) ∧
    (update_dueDate body = None → dueDate T = dueDate t) ∧
    _id T = _id t ∧ user T = user t ∧ createdAt T = createdAt t ∧
    T ∈ docs c'.
Proof.
  intros Hwf Ht. pose proof (wf_nodup _ Hwf) as Hnd.
  destruct (wf_doc_valid c t Hwf Ht) as [Htitle Hprio].
  split.
  - rewrite router_put_owned by done. simpl.
    rewrite (proj2 (validate_ok (title t) (priority t))) by done.
    eexists. split; [reflexivity|]. simpl.
    intros d [->|[_ Hd]]%replace_doc_elem_of Hid; [done|].
    by destruct Hd.
  - intros body T c'. rewrite router_put_owned by done. simpl.
    destruct (validate _ _); [discriminate|].
    intros [= <- <-]. simpl.
    repeat split; try (by intros ->).
    by apply (replace_doc_stores t).
Qed.

Lemma update_keeps_omitted_fields_witness :
  ∃ c',
    router_put 2000 alice 0%nat only_completed one_todo =
      (mkResponse 200 (JTodo
         {| _id := 0%nat; title := "Buy milk"; description := "";
            completed := true; priority := "medium"; dueDate := None;
            user := alice; createdAt := 1000; updatedAt := 2000 |}), c') ∧
    ∀ d, d ∈ docs c' → _id d = 0%nat →
      title d = "Buy milk" ∧ description d = "" ∧ completed d = true ∧
      priority d = "medium" ∧ dueDate d = None.
Proof.
  refine (proj1 (update_keeps_omitted_fields one_todo groceries 2000 _ _)).
  - split; simpl.
    + apply NoDup_singleton.
    + repeat constructor.
    + repeat constructor.
  - apply list_elem_of_here.
Defined.

(** C10. On a Todo of the caller, an update that supplies a falsy title,
    priority or due date (absent or the empty string) keeps the stored value
    of that field, and an update whose priority and due date are both falsy
    is accepted; whatever the body and the answer, the stored title is
    never empty afterwards and a stored due date is never removed. A
    supplied description or completed flag is stored as it is, the empty
    string and [false] included. *)
Theorem update_ignores_falsy_fields c t now body :
  wf c → t ∈ docs c →
  (truthy_opt (update_priority body) = false →
   truthy_opt (update_dueDate body) = false →
   ∃ T c', router_put now (user t) (_id t) body c = (mkResponse 200 (JTodo T), c')) ∧
  (∀ T c',
     router_put now (user t) (_id t) body c = (mkResponse 200 (JTodo T), c') →
     (truthy_opt (update_title body) = false → title T = title t) ∧
     (truthy_opt (update_priority body) = false → priority T = priority t) ∧
     (truthy_opt (update_dueDate body) = false → dueDate T = dueDate t) ∧
     (∀ s, update_description body = Some s → description T = s) ∧
     (∀ b, update_completed body = Some b → completed T = b) ∧
     T ∈ docs c') ∧
  ∀ r c' d,
    router_put now (user t) (_id t) body c = (r, c') →
    d ∈ docs c' → _id d = _id t →
    (truthy_opt (update_title body) = false → title d = title t) ∧
    (truthy_opt (update_priority body) = false → priority d = priority t) ∧
    (truthy_opt (update_dueDate body) = false → dueDate d = dueDate t) ∧
    title d ≠ "" ∧
    (is_Some (dueDate t) → is_Some (dueDate d)).
Proof.
  intros Hwf Ht. pose proof (wf_nodup _ Hwf) as Hnd.
  destruct (wf_doc_valid c t Hwf Ht) as [Htitle Hprio].
  assert (truthy_opt (update_dueDate body) = false →
          dueDate (assign_fields body t) = dueDate t) as Hdue.
  { simpl. destruct (update_dueDate body) as [s|]; simpl; [by intros ->|done]. }
  rewrite router_put_owned by done. cbv zeta.
  split; [|split].
  - intros Hp _.
    rewrite (proj2 (validate_ok _ _)); [eauto|].
    simpl. split; [by apply or_else_nonempty|].
    by rewrite or_else_falsy.
  - intros T c'. destruct (validate _ _); [discriminate|].
    intros [= <- <-].
    repeat split.
    + apply or_else_falsy.
    + apply or_else_falsy.
    + by apply Hdue.
    + by intros s; simpl; intros ->.
    + by intros b; simpl; intros ->.
    + by apply (replace_doc_stores t).
  - intros r c' d Hput Hd Hid.
    assert (d = t ∨ d = touch now (assign_fields body t)) as [->| ->].
    { destruct (validate _ _); injection Hput as <- <-.
      - left. eauto using same_id_same_doc.
      - simpl in Hd. apply replace_doc_elem_of in Hd as [->|[Hd Hne]]; [by right|].
        by destruct Hne. }
    + done.
    + repeat split.
      * apply or_else_falsy.
      * apply or_else_falsy.
      * by apply Hdue.
      * by apply or_else_nonempty.
      * simpl. destruct (update_dueDate body) as [s|]; [|done].
        destruct (truthy s); [eauto | done].
Qed.

Lemma update_ignores_falsy_fields_witness :
  ∃ c',
    router_put 2000 alice 0%nat falsy_fields one_dated_todo =
      (mkResponse 200 (JTodo
         {| _id := 0%nat; title := "Dentist"; description := "";
            completed := false; priority := "high";
            dueDate := Some (newDate "2025-03-01"); user := alice;
            createdAt := 1000; updatedAt := 2000 |}), c').
Proof.
  assert (wf one_dated_todo) as Hwf.
  { split; simpl; [apply NoDup_singleton | repeat constructor..]. }
  assert (dentist ∈ docs one_dated_todo) as Hin by apply list_elem_of_here.
  destruct (update_ignores_falsy_fields one_dated_todo dentist 2000 falsy_fields
              Hwf Hin) as [Hok _].
  destruct (Hok eq_refl eq_refl) as (T & c' & Hput).
  exists c'. refine (eq_trans Hput _).
  vm_compute in Hput. by injection Hput as <- _.
Defined.

(** *** The handlers keep the collection well formed *)

Lemma wf_empty n : wf {| docs := []; next_id := n |}.
Proof. split; simpl; constructor. Qed.

Lemma router_post_wf now caller body c :
  wf c → wf (router_post now caller body c).2.
Proof.
  intros [Hnd Hfr Hv].
  destruct (router_post_cases now caller body c) as [(msg & _ & ->)|[Hok ->]];
    [done|]. simpl. split; simpl.
  - rewrite fmap_app. apply NoDup_app. split; [done|]. split.
    + intros i (d & -> & Hd)%list_elem_of_fmap [E|[]%elem_of_nil]%elem_of_cons.
      rewrite Forall_forall in Hfr. specialize (Hfr d Hd). simpl in E. lia.
    + apply NoDup_singleton.
  - apply Forall_app. split.
    + eapply Forall_impl; [exact Hfr|]. simpl. intros; lia.
    + apply Forall_singleton. simpl. lia.
  - apply Forall_app. split; [done|]. apply Forall_singleton. simpl.
    unfold validate in *. destruct (create_title body) as [s|]; [done|].
    simpl in Hok. discriminate.
Qed.

Lemma replace_doc_ids (t' : Todo) (l : list Todo) :
  _id <$> replace_doc t' l = _id <$> l.
Proof.
  unfold replace_doc. rewrite <- list_fmap_compose.
  apply list_fmap_ext. intros i d _. simpl. by case_bool_decide.
Qed.

Lemma router_put_wf now caller id body c :
  wf c → wf (router_put now caller id body c).2.
Proof.
  intros Hwf. unfold router_put, save.
  destruct (Todo_findOne id caller c) as [t|] eqn:Hf; [|done].
  apply find_elem_of in Hf as [Ht _].
  destruct (validate _ _) eqn:Hv; [done|].
  destruct Hwf as [Hnd Hfr Hval]. split; simpl.
  - by rewrite replace_doc_ids.
  - rewrite Forall_forall in Hfr |- *.
    intros d [->|[Hd _]]%replace_doc_elem_of; [by apply (Hfr t) | by apply Hfr].
  - rewrite Forall_forall in Hval |- *.
    intros d [->|[Hd _]]%replace_doc_elem_of; [done | by apply Hval].
Qed.

Lemma delete_first_elem_of id (l : list Todo) d :
  d ∈ delete_first id l → d ∈ l.
Proof.
  induction l as [|x l IH]; simpl; [done|].
  case_bool_decide.
  - by right.
  - intros [->|Hd]%elem_of_cons; [left | right; auto].
Qed.

Lemma delete_first_nodup id (l : list Todo) :
  NoDup (_id <$> l) → NoDup (_id <$> delete_first id l).
Proof.
  induction l as [|x l IH]; simpl; [done|].
  rewrite NoDup_cons. intros [Hx Hl]. case_bool_decide; [done|].
  rewrite fmap_cons. apply NoDup_cons. split; [|auto].
  intros (d & E & Hd)%list_elem_of_fmap. apply Hx. rewrite E.
  apply list_elem_of_fmap_2. eauto using delete_first_elem_of.
Qed.

Lemma router_delete_wf caller id c :
  wf c → wf (router_delete caller id c).2.
Proof.
  intros Hwf. unfold router_delete.
  destruct (Todo_findOne id caller c); [|done].
  destruct Hwf as [Hnd Hfr Hval]. split; simpl.
  - by apply delete_first_nodup.
  - rewrite Forall_forall in Hfr |- *. eauto using delete_first_elem_of.
  - rewrite Forall_forall in Hval |- *. eauto using delete_first_elem_of.
Qed.


(** Every collection the handlers can build from the empty one is well
    formed. *)
Lemma handle_wf r c : wf c → wf (handle r c).2.
Proof.
  destruct r; simpl;
    auto using router_post_wf, router_put_wf, router_delete_wf.
Qed.

Lemma serve_wf rs c : wf c → wf (serve rs c).
Proof.
  revert c. induction rs as [|r rs IH]; intros c Hwf; simpl; [done|].
  apply IH. by apply handle_wf.
Qed.

Lemma served_wf rs : wf (serve rs no_todos).
Proof. apply serve_wf, wf_empty. Qed.

(** *** Isolation between owners *)

Lemma findOne_Some id caller c t :
  Todo_findOne id caller c = Some t → t ∈ docs c ∧ _id t = id ∧ user t = caller.
Proof.
  intros [Ht Hp]%find_elem_of. apply bool_decide_eq_true in Hp. tauto.
Qed.

Lemma delete_first_others id (l : list Todo) d :
  d ∈ l → _id d ≠ id → d ∈ delete_first id l.
Proof.
  induction l as [|x l IH]; simpl; [done|].
  intros [->|Hd]%elem_of_cons Hne.
  - rewrite bool_decide_eq_false_2 by done. left.
  - case_bool_decide; [done|]. right. auto.
Qed.

(** The Todos of a user are the same before and after any request made by
    another user, whatever identifiers that request names. *)
Lemma requests_of_others_change_nothing r c d :
  NoDup (_id <$> docs c) → user d ≠ caller_of r →
  d ∈ docs (handle r c).2 ↔ d ∈ docs c.
Proof.
  intros Hnd Hne. destruct r as [caller|now caller body|now caller id body|caller id];
    simpl in *.
  - done.
  - destruct (router_post_cases now caller body c) as [(msg & _ & ->)|[_ ->]];
      simpl; [done|].
    rewrite elem_of_app, list_elem_of_singleton. split; [|by left].
    intros [Hd| ->]; [done|]. by destruct Hne.
  - unfold router_put, save.
    destruct (Todo_findOne id caller c) as [t|] eqn:Hf; [|done].
    apply findOne_Some in Hf as (Ht & <- & <-).
    destruct (validate _ _); [done|]. simpl. split.
    + intros [->|[Hd _]]%replace_doc_elem_of; [by destruct Hne | done].
    + intros Hd. apply replace_doc_others; [done|]. simpl.
      intros Hid. apply Hne. f_equal. eauto using same_id_same_doc.
  - unfold router_delete.
    destruct (Todo_findOne id caller c) as [t|] eqn:Hf; [|done].
    apply findOne_Some in Hf as (Ht & <- & <-). simpl. split.
    + apply delete_first_elem_of.
    + intros Hd. apply delete_first_others; [done|].
      intros Hid. apply Hne. f_equal. eauto using same_id_same_doc.
Qed.

(** The owner of a stored Todo never changes. *)
Lemma owner_is_kept r c d d' :
  wf c →
  d ∈ docs c → d' ∈ docs (handle r c).2 → _id d' = _id d → user d' = user d.
Proof.
  intros [Hnd Hfr _] Hd Hd' Hid.
  assert (d' ∈ docs c → user d' = user d) as Hsame.
  { intros H. f_equal. eauto using same_id_same_doc. }
  destruct r as [caller|now caller body|now caller id body|caller id]; simpl in *.
  - auto.
  - destruct (router_post_cases now caller body c) as [(msg & _ & E)|[_ E]];
      rewrite E in Hd'; simpl in Hd'; [auto|].
    apply elem_of_app in Hd' as [H|H]; [auto|].
    apply list_elem_of_singleton in H. subst d'. simpl in Hid.
    rewrite Forall_forall in Hfr. specialize (Hfr d Hd). lia.
  - unfold router_put, save in Hd'.
    destruct (Todo_findOne id caller c) as [t|] eqn:Hf; [|auto].
    apply findOne_Some in Hf as (Ht & <- & <-).
    destruct (validate _ _); [auto|]. simpl in Hd'.
    apply replace_doc_elem_of in Hd' as [->|[H _]]; [|auto].
    simpl in *. f_equal. eauto using same_id_same_doc.
  - unfold router_delete in Hd'.
    destruct (Todo_findOne id caller c) as [t|] eqn:Hf; [|auto].
    simpl in Hd'. eauto using delete_first_elem_of.
Qed.

End ServerProofs.

(** ** The session manager and the view router *)

Module ClientProofs.
Import Client.

Lemma getAuthHeaders_stored w t :
  AsyncStorage w !! "token" = Some t → t ≠ "" →
  getAuthHeaders w = (Return (bearer t), w, []).
Proof.
  intros Hs Ht. unfold getAuthHeaders, bind, getItem, ret. rewrite Hs.
  apply truthy_true in Ht. by rewrite Ht.
Qed.

Lemma getCurrentUser_fails net w t :
  AsyncStorage w !! "token" = Some t → t ≠ "" →
  succeeded (fetch_me net (bearer t)) = None →
  ∃ e, getCurrentUser net w = (Throw e, w, []).
Proof.
  intros Hs Ht Hf. unfold getCurrentUser, bind.
  rewrite (getAuthHeaders_stored w t) by done. unfold await, throw.
  destruct (fetch_me net (bearer t)) as [[[u|e]|j]|e]; simpl in *; eauto.
  discriminate.
Qed.

(** C6. At startup, when the store holds a token and the identity check
    fails (the server turns the token down, the request does not get
    through, or the answer cannot be read), [checkAuthState] returns
    normally, having removed the token from the store and then set the
    session to user = null, token = null, loading = false. *)
Theorem startup_discards_rejected_token net w t :
  AsyncStorage w !! "token" = Some t → t ≠ "" →
  succeeded (fetch_me net (bearer t)) = None →
  let w1 := {| AsyncStorage := delete "token" (AsyncStorage w);
               authState := authState w |} in
  let w2 := {| AsyncStorage := delete "token" (AsyncStorage w);
               authState := anonymous |} in
  checkAuthState net w = (Return tt, w2, [w1; w2]) ∧
  AsyncStorage w2 !! "token" = None ∧
  user (authState w2) = None ∧ token (authState w2) = None ∧
  isLoading (authState w2) = false.
Proof.
  intros Hs Ht Hf w1 w2.
  destruct (getCurrentUser_fails net w t Hs Ht Hf) as [e He].
  subst w1 w2. simpl.
  split; [|by rewrite lookup_delete_eq].
  unfold checkAuthState, try_catch, bind at 1, getItem. rewrite Hs.
  simpl. apply truthy_true in Ht. rewrite Ht.
  unfold bind at 1. rewrite He. reflexivity.
Qed.

Lemma startup_discards_rejected_token_witness :
  checkAuthState refusing stale_start =
    (Return tt,
     {| AsyncStorage := delete "token" (AsyncStorage stale_start);
        authState := anonymous |},
     [ {| AsyncStorage := delete "token" (AsyncStorage stale_start);
          authState := initializing |};
       {| AsyncStorage := delete "token" (AsyncStorage stale_start);
          authState := anonymous |} ]).
Proof.
  refine (proj1 (startup_discards_rejected_token refusing stale_start "stale.jwt" _ _ _)).
  - reflexivity.
  - discriminate.
  - reflexivity.
Defined.

(** The other two branches of the startup sequence. *)
Lemma startup_without_token net w :
  truthy_opt (AsyncStorage w !! "token") = false →
  checkAuthState net w =
    (Return tt, {| AsyncStorage := AsyncStorage w; authState := anonymous |},
     [{| AsyncStorage := AsyncStorage w; authState := anonymous |}]).
Proof.
  intros Hs. unfold checkAuthState, try_catch, bind, getItem. simpl.
  by rewrite Hs.
Qed.

Lemma startup_with_valid_token net w t u :
  AsyncStorage w !! "token" = Some t → t ≠ "" →
  succeeded (fetch_me net (bearer t)) = Some u →
  checkAuthState net w =
    (Return tt,
     {| AsyncStorage := AsyncStorage w;
        authState := {| user := Some u; token := Some t; isLoading := false |} |},
     [{| AsyncStorage := AsyncStorage w;
         authState := {| user := Some u; token := Some t; isLoading := false |} |}]).
Proof.
  intros Hs Ht Hf.
  unfold checkAuthState, try_catch, bind at 1, getItem. rewrite Hs. simpl.
  pose proof Ht as Htr. apply truthy_true in Htr. rewrite Htr.
  unfold bind at 1, getCurrentUser, bind at 1.
  rewrite (getAuthHeaders_stored w t) by done.
  unfold bind, await.
  destruct (fetch_me net (bearer t)) as [[[u'|e]|j]|e]; simplify_eq/=. done.
Qed.

(** *** Logging out *)

(** C7. Logging out of a session with a user first removes the token from
    the store, the session being still the authenticated one, and only then
    sets the session to user = null, token = null, loading = false. At no
    point of the execution, the start included, is the session the anonymous
    one while the store still holds a token. *)
Theorem logout_clears_store_first w :
  is_Some (user (authState w)) →
  let w1 := {| AsyncStorage := delete "token" (AsyncStorage w);
               authState := authState w |} in
  let w2 := {| AsyncStorage := delete "token" (AsyncStorage w);
               authState := anonymous |} in
  logout w = (Return tt, w2, [w1; w2]) ∧
  AsyncStorage w1 !! "token" = None ∧ authState w1 = authState w ∧
  authState w2 = anonymous ∧ AsyncStorage w2 !! "token" = None ∧
  Forall (λ x, authState x = anonymous → AsyncStorage x !! "token" = None)
         [w; w1; w2].
Proof.
  intros [u Hu] w1 w2. subst w1 w2. simpl.
  split; [done|]. rewrite lookup_delete_eq. repeat split.
  repeat constructor; simpl; try (intros _; apply lookup_delete_eq).
  intros Ha. rewrite Ha in Hu. discriminate.
Qed.

Lemma logout_clears_store_first_witness :
  logout ann_session =
    (Return tt,
     {| AsyncStorage := delete "token" (AsyncStorage ann_session);
        authState := anonymous |},
     [ {| AsyncStorage := delete "token" (AsyncStorage ann_session);
          authState := authState ann_session |};
       {| AsyncStorage := delete "token" (AsyncStorage ann_session);
          authState := anonymous |} ]).
Proof.
  refine (proj1 (logout_clears_store_first ann_session _)).
  simpl. eauto.
Defined.

(** *** Logging in and registering *)

Lemma ApiService_login_fails net data w :
  succeeded (fetch_login net data) = None →
  ∃ e, ApiService_login net data w = (Throw e, w, []).
Proof.
  intros Hf. unfold ApiService_login, bind, await, throw.
  destruct (fetch_login net data) as [[[r|e]|[b|e]]|e]; simpl in *; eauto.
  discriminate.
Qed.

Lemma ApiService_register_fails net data w :
  succeeded (fetch_register net data) = None →
  ∃ e, ApiService_register net data w = (Throw e, w, []).
Proof.
  intros Hf. unfold ApiService_register, bind, await, throw.
  destruct (fetch_register net data) as [[[r|e]|[b|e]]|e]; simpl in *; eauto.
  discriminate.
Qed.

Lemma login_rethrows net data w e :
  ApiService_login net data w = (Throw e, w, []) →
  login net data w = (Throw e, w, []).
Proof. intros H. unfold login, try_catch, bind. by rewrite H. Qed.

Lemma register_rethrows net data w e :
  ApiService_register net data w = (Throw e, w, []) →
  register net data w = (Throw e, w, []).
Proof. intros H. unfold register, try_catch, bind. by rewrite H. Qed.

Lemma login_succeeds net data w r :
  succeeded (fetch_login net data) = Some r →
  login net data w = (Return tt, (signed_in w r).1, (signed_in w r).2).
Proof.
  intros Hf. unfold login, try_catch, bind at 1, ApiService_login, bind at 1, await.
  destruct (fetch_login net data) as [[[r'|e]|j]|e]; simplify_eq/=. done.
Qed.

Lemma register_succeeds net data w r :
  succeeded (fetch_register net data) = Some r →
  register net data w = (Return tt, (signed_in w r).1, (signed_in w r).2).
Proof.
  intros Hf. unfold register, try_catch, bind at 1, ApiService_register, bind at 1, await.
  destruct (fetch_register net data) as [[[r'|e]|j]|e]; simplify_eq/=. done.
Qed.

(** C8. A login or a registration whose request fails (the server answers
    with an error such as invalid credentials or a duplicate email, the
    request does not get through, or the answer cannot be read) raises to
    its caller the error the API call raised: for an error answer, the
    server's message, or the default one when there is none. Nothing is
    written: store and session are what they were, so an anonymous session
    stays anonymous. Store or session change only when the request
    succeeded. *)
Theorem failed_sign_in_changes_nothing net w ldata rdata :
  (succeeded (fetch_login net ldata) = None →
   ∃ e, ApiService_login net ldata w = (Throw e, w, []) ∧
        login net ldata w = (Throw e, w, [])) ∧
  (succeeded (fetch_register net rdata) = None →
   ∃ e, ApiService_register net rdata w = (Throw e, w, []) ∧
        register net rdata w = (Throw e, w, [])) ∧
  (∀ b, fetch_login net ldata = Return (NotOk (Return b)) →
        login net ldata w =
          (Throw (mkError (or_else (error_message b) "Login failed")), w, [])) ∧
  (∀ b, fetch_register net rdata = Return (NotOk (Return b)) →
        register net rdata w =
          (Throw (mkError (or_else (error_message b) "Registration failed")), w, [])) ∧
  (∀ r w' h, login net ldata w = (r, w', h) → w' ≠ w ∨ h ≠ [] →
             r = Return tt ∧ is_Some (succeeded (fetch_login net ldata))) ∧
  (∀ r w' h, register net rdata w = (r, w', h) → w' ≠ w ∨ h ≠ [] →
             r = Return tt ∧ is_Some (succeeded (fetch_register net rdata))).
Proof.
  split; [|split; [|split; [|split; [|split]]]].
  - intros Hf. destruct (ApiService_login_fails net ldata w Hf) as [e He].
    exists e. split; [done | by apply login_rethrows].
  - intros Hf. destruct (ApiService_register_fails net rdata w Hf) as [e He].
    exists e. split; [done | by apply register_rethrows].
  - intros b Hb. apply login_rethrows.
    unfold ApiService_login, bind, await, throw. by rewrite Hb.
  - intros b Hb. apply register_rethrows.
    unfold ApiService_register, bind, await, throw. by rewrite Hb.
  - intros r w' h Hl Hch.
    destruct (succeeded (fetch_login net ldata)) as [resp|] eqn:Hs.
    + rewrite (login_succeeds net ldata w resp Hs) in Hl.
      injection Hl as <- _ _. eauto.
    + destruct (ApiService_login_fails net ldata w Hs) as [e He].
      rewrite (login_rethrows _ _ _ _ He) in Hl. injection Hl as _ <- <-.
      by destruct Hch.
  - intros r w' h Hl Hch.
    destruct (succeeded (fetch_register net rdata)) as [resp|] eqn:Hs.
    + rewrite (register_succeeds net rdata w resp Hs) in Hl.
      injection Hl as <- _ _. eauto.
    + destruct (ApiService_register_fails net rdata w Hs) as [e He].
      rewrite (register_rethrows _ _ _ _ He) in Hl. injection Hl as _ <- <-.
      by destruct Hch.
Qed.

Lemma failed_sign_in_changes_nothing_witness :
  login refusing ann_login signed_out =
    (Throw (mkError "Invalid credentials"), signed_out, []) ∧
  register refusing ann_register signed_out =
    (Throw (mkError "Registration failed"), signed_out, []).
Proof.
  destruct (failed_sign_in_changes_nothing refusing signed_out ann_login ann_register)
    as (_ & _ & Hl & Hr & _).
  split.
  - apply (Hl (mkErrorBody (Some "Invalid credentials"))). reflexivity.
  - apply (Hr (mkErrorBody None)). reflexivity.
Defined.

(** *** The view router *)

(** C9. What the two routing components render is determined by the session
    alone: while it is loading, the loading indicator and neither tree; once
    loaded without a user, the redirection to the login screen; once loaded
    with a user, the authenticated tree (the redirection to the tabs from
    the index screen, the tabs themselves from their layout). Two sessions
    that agree on the loading flag and on whether there is a user render the
    same. *)
Theorem view_router_cases (s : AuthState) :
  (isLoading s = true →
   IndexScreen s = ActivityIndicator ∧ TabLayout s = ActivityIndicator) ∧
  (isLoading s = false → user s = None →
   IndexScreen s = Redirect "/(auth)/login" ∧
   TabLayout s = Redirect "/(auth)/login") ∧
  (isLoading s = false → user s ≠ None →
   IndexScreen s = Redirect "/(tabs)" ∧ TabLayout s = Tabs) ∧
  ∀ s', isLoading s' = isLoading s → (user s' = None ↔ user s = None) →
        IndexScreen s' = IndexScreen s ∧ TabLayout s' = TabLayout s.
Proof.
  unfold IndexScreen, TabLayout.
  split; [|split; [|split]].
  - by intros ->.
  - by intros -> ->.
  - intros ->. by destruct (user s).
  - intros s' ->. destruct (isLoading s); [done|].
    destruct (user s), (user s'); intros [H1 H2]; try done.
    + discriminate (H1 eq_refl).
    + discriminate (H2 eq_refl).
Qed.

Lemma view_router_cases_witness :
  (IndexScreen initializing = ActivityIndicator ∧
   TabLayout initializing = ActivityIndicator) ∧
  (IndexScreen anonymous = Redirect "/(auth)/login" ∧
   TabLayout anonymous = Redirect "/(auth)/login") ∧
  (IndexScreen (authState ann_session) = Redirect "/(tabs)" ∧
   TabLayout (authState ann_session) = Tabs).
Proof.
  split; [|split].
  - apply (proj1 (view_router_cases initializing)). reflexivity.
  - apply (proj1 (proj2 (view_router_cases anonymous))); reflexivity.
  - apply (proj1 (proj2 (proj2 (view_router_cases (authState ann_session)))));
      [reflexivity | discriminate].
Defined.

End ClientProofs.

(** ** More on the handlers of the Todo collection *)

Module ServerExtras.
Import Server ServerSamples ServerProofs.

(** *** What a request of one user does to the list of another *)

Lemma filter_replace_doc_other (me : ObjectId) (t' : Todo) (l : list Todo) :
  user t' ≠ me →
  (∀ d, d ∈ l → _id d = _id t' → user d ≠ me) →
  filter (λ d, user d = me) (replace_doc t' l) = filter (λ d, user d = me) l.
Proof.
  intros Ht' Hl. induction l as [|x l IH]; [done|].
  unfold replace_doc in *. rewrite fmap_cons.
  assert (∀ d, d ∈ l → _id d = _id t' → user d ≠ me) as Hl'.
  { intros d Hd. apply Hl. by right. }
  case_bool_decide as Hid.
  - rewrite filter_cons_False by done.
    rewrite (filter_cons_False _ x); [by apply IH|].
    apply Hl; [left | done].
  - rewrite !filter_cons. rewrite IH by done. done.
Qed.

Lemma filter_delete_first_other (me id : ObjectId) (l : list Todo) :
  (∀ d, d ∈ l → _id d = id → user d ≠ me) →
  filter (λ d, user d = me) (delete_first id l) = filter (λ d, user d = me) l.
Proof.
  induction l as [|x l IH]; intros Hl; simpl; [done|].
  assert (∀ d, d ∈ l → _id d = id → user d ≠ me) as Hl'.
  { intros d Hd. apply Hl. by right. }
  case_bool_decide as Hid.
  - rewrite filter_cons_False; [done|]. apply Hl; [left | done].
  - rewrite !filter_cons, IH by done. done.
Qed.

Lemma find_after_request_of_other r c me :
  NoDup (_id <$> docs c) → caller_of r ≠ me →
  Todo_find me (handle r c).2 = Todo_find me c.
Proof.
  intros Hnd Hne. unfold Todo_find.
  destruct r as [caller|now caller body|now caller id body|caller id]; simpl in *.
  - done.
  - destruct (router_post_cases now caller body c) as [(msg & _ & ->)|[_ ->]];
      simpl; [done|].
    rewrite filter_app, filter_cons_False, filter_nil by done.
    by rewrite app_nil_r.
  - unfold router_put, save.
    destruct (Todo_findOne id caller c) as [t|] eqn:Hf; [|done].
    apply findOne_Some in Hf as (Ht & <- & <-).
    destruct (validate _ _); [done|]. simpl.
    apply filter_replace_doc_other; [done|]. simpl.
    intros d Hd Hid. by rewrite (same_id_same_doc (docs c) d t).
  - unfold router_delete.
    destruct (Todo_findOne id caller c) as [t|] eqn:Hf; [|done].
    apply findOne_Some in Hf as (Ht & <- & <-). simpl.
    apply filter_delete_first_other.
    intros d Hd Hid. by rewrite (same_id_same_doc (docs c) d t).
Qed.

(** X1. Whatever requests other users make, with whatever identifiers, the
    list a user is given stays what it was. *)
Theorem others_requests_keep_my_list (rs : list Request) (c : Collection)
    (me : ObjectId) :
  wf c →
  Forall (λ r, caller_of r ≠ me) rs →
  router_get me (serve rs c) = router_get me c.
Proof.
  intros Hwf Hrs. revert c Hwf.
  induction Hrs as [|r rs Hr _ IH]; intros c Hwf; simpl; [done|].
  rewrite IH by by apply handle_wf.
  unfold router_get. f_equal. f_equal. f_equal.
  apply find_after_request_of_other; [by destruct Hwf | done].
Qed.

Lemma others_requests_keep_my_list_witness :
  router_get alice (serve bobs_requests one_todo) = router_get alice one_todo.
Proof.
  apply (others_requests_keep_my_list bobs_requests one_todo alice).
  - split; simpl; [apply NoDup_singleton | repeat constructor..].
  - repeat constructor; simpl; discriminate.
Defined.

(** *** Owners *)

Lemma owner_kept_by_request r c d :
  wf c → (_id d < next_id c)%nat →
  (∀ d', d' ∈ docs c → _id d' = _id d → user d' = user d) →
  (∀ d', d' ∈ docs (handle r c).2 → _id d' = _id d → user d' = user d) ∧
  (_id d < next_id (handle r c).2)%nat.
Proof.
  intros Hwf Hlt Hc.
  destruct r as [caller|now caller body|now caller id body|caller id]; simpl.
  - done.
  - destruct (router_post_cases now caller body c) as [(msg & _ & ->)|[_ ->]];
      simpl; [done|]. split; [|lia].
    intros d' [Hd'|Hd']%elem_of_app Hid; [auto|].
    apply list_elem_of_singleton in Hd'. subst d'. simpl in Hid. lia.
  - unfold router_put, save.
    destruct (Todo_findOne id caller c) as [t|] eqn:Hf; [|done].
    apply findOne_Some in Hf as (Ht & _ & _).
    destruct (validate _ _); [done|]. simpl. split; [|done].
    intros d' [->|[Hd' _]]%replace_doc_elem_of Hid; [|auto].
    simpl in *. auto.
  - unfold router_delete.
    destruct (Todo_findOne id caller c) as [t|]; [|done]. simpl.
    split; [|done]. eauto using delete_first_elem_of.
Qed.

(** X2. The owner of a Todo is set when it is created and never changes:
    after any sequence of requests, a document with the identifier of a
    stored Todo has the owner that Todo had. *)
Theorem owner_never_changes (rs : list Request) (c : Collection) (d d' : Todo) :
  wf c → d ∈ docs c →
  d' ∈ docs (serve rs c) → _id d' = _id d → user d' = user d.
Proof.
  intros Hwf Hd.
  assert (_id d < next_id c)%nat as Hlt.
  { destruct Hwf as [_ Hfr _]. rewrite Forall_forall in Hfr. auto. }
  assert (∀ x, x ∈ docs c → _id x = _id d → user x = user d) as Hc.
  { intros x Hx Hid. f_equal. destruct Hwf. eauto using same_id_same_doc. }
  clear Hd. revert c Hwf Hlt Hc d'.
  induction rs as [|r rs IH]; intros c Hwf Hlt Hc d'; simpl; [by auto|].
  destruct (owner_kept_by_request r c d Hwf Hlt Hc) as [Hc' Hlt'].
  apply IH; auto using handle_wf.
Qed.

Lemma owner_never_changes_witness :
  Forall (λ d', _id d' = 0%nat → user d' = alice)
         (docs (serve alices_requests one_todo)).
Proof.
  apply Forall_forall. intros d' Hd'.
  apply (owner_never_changes alices_requests one_todo groceries d').
  - split; simpl; [apply NoDup_singleton | repeat constructor..].
  - apply list_elem_of_here.
  - exact Hd'.
Defined.

(** *** Deleting *)

Lemma delete_first_last (id : ObjectId) (l : list Todo) (T : Todo) :
  (∀ d, d ∈ l → _id d ≠ id) → _id T = id →
  delete_first id (l ++ [T]) = l.
Proof.
  intros Hl HT. induction l as [|x l IH]; simpl.
  - by rewrite bool_decide_eq_true_2.
  - rewrite bool_decide_eq_false_2 by (apply Hl; left).
    f_equal. apply IH. intros d Hd. apply Hl. by right.
Qed.

(** X3. Deleting a Todo right after creating it gives back the documents
    there were before: the delete is answered 200 and the collection holds
    what it held before the create. *)
Theorem create_then_delete now caller body c T c1 :
  wf c →
  router_post now caller body c = (mkResponse 201 (JTodo T), c1) →
  ∃ c2,
    router_delete caller (_id T) c1 =
      (mkResponse 200 (JMessage "Todo deleted successfully"), c2) ∧
    docs c2 = docs c.
Proof.
  intros Hwf Hpost.
  pose proof (router_post_wf now caller body c Hwf) as Hwf1.
  rewrite Hpost in Hwf1. simpl in Hwf1.
  apply router_post_201 in Hpost as (HT & Hd & Hn).
  assert (user T = caller) as Hu by by rewrite HT.
  assert (_id T = next_id c) as Hi by by rewrite HT.
  assert (T ∈ docs c1) as Hin.
  { rewrite Hd. apply elem_of_app. right. apply list_elem_of_here. }
  unfold router_delete. rewrite <- Hu.
  pose proof (wf_nodup _ Hwf1) as Hnd1.
  rewrite findOne_owned by done.
  eexists. split; [reflexivity|]. simpl. rewrite Hd.
  apply delete_first_last; [|done].
  intros d Hd'. destruct Hwf as [_ Hfr _]. rewrite Forall_forall in Hfr.
  specialize (Hfr d Hd'). lia.
Qed.

Lemma create_then_delete_witness :
  ∃ c2,
    router_delete bob 1%nat (router_post 2000 bob (only_title "Call Ann") one_todo).2 =
      (mkResponse 200 (JMessage "Todo deleted successfully"), c2) ∧
    docs c2 = docs one_todo.
Proof.
  apply (create_then_delete 2000 bob (only_title "Call Ann") one_todo
           (created_todo 2000 bob (only_title "Call Ann") one_todo)).
  - split; simpl; [apply NoDup_singleton | repeat constructor..].
  - reflexivity.
Defined.



(** *** Answers *)

(** X5. A request that fails stores nothing: whenever the answer of a
    handler is neither 200 nor 201, be it the 404 of a Todo that the caller
    does not own or the 500 of a rejected save, the collection is exactly
    what it was. *)
Theorem failed_request_changes_nothing (r : Request) (c : Collection) :
  status (handle r c).1 ≠ 200%nat →
  status (handle r c).1 ≠ 201%nat →
  (handle r c).2 = c.
Proof.
  destruct r as [caller|now caller body|now caller id body|caller id]; simpl.
  - done.
  - by destruct (router_post_cases now caller body c) as [(msg & _ & ->)|[_ ->]].
  - unfold router_put, save.
    destruct (Todo_findOne id caller c) as [t|]; simpl; [|done].
    by destruct (validate _ _).
  - unfold router_delete.
    by destruct (Todo_findOne id caller c) as [t|].
Qed.

Lemma failed_request_changes_nothing_witness :
  (handle (POST 2000 alice untitled) one_todo).2 = one_todo ∧
  (handle (PUT 2100 bob 0%nat renamed) one_todo).2 = one_todo.
Proof.
  split.
  - apply (failed_request_changes_nothing (POST 2000 alice untitled) one_todo);
      simpl; lia.
  - apply (failed_request_changes_nothing (PUT 2100 bob 0%nat renamed) one_todo);
      simpl; lia.
Defined.

(** *** Updating twice *)

Lemma replace_doc_twice (t' : Todo) (l : list Todo) :
  replace_doc t' (replace_doc t' l) = replace_doc t' l.
Proof.
  unfold replace_doc. rewrite <- list_fmap_compose.
  apply list_fmap_ext. intros i d _. simpl.
  destruct (bool_decide (_id d = _id t')) eqn:E.
  - by rewrite bool_decide_eq_true_2.
  - by rewrite E.
Qed.

Lemma assign_fields_twice now body t :
  touch now (assign_fields body (touch now (assign_fields body t)))
  = touch now (assign_fields body t).
Proof.
  unfold touch, assign_fields. simpl. f_equal.
  - destruct (update_title body) as [s|]; simpl; [|done]. by destruct (truthy s).
  - by destruct (update_description body).
  - by destruct (update_completed body).
  - destruct (update_priority body) as [s|]; simpl; [|done]. by destruct (truthy s).
  - destruct (update_dueDate body) as [s|]; [|done]. by destruct (truthy s).
Qed.

(** X6. Sending an update a second time is harmless: on a well-formed
    collection the second request, made at the same time with the same
    body, gets the answer of the first and leaves the collection as the
    first left it. *)
Theorem update_twice now caller id body c r1 c1 :
  wf c →
  router_put now caller id body c = (r1, c1) →
  router_put now caller id body c1 = (r1, c1).
Proof.
  intros Hwf Hput.
  pose proof (router_put_wf now caller id body c Hwf) as Hwf1.
  rewrite Hput in Hwf1. simpl in Hwf1.
  pose proof (wf_nodup _ Hwf) as Hnd. pose proof (wf_nodup _ Hwf1) as Hnd1.
  destruct (Todo_findOne id caller c) as [t|] eqn:Hf.
  - apply findOne_Some in Hf as (Ht & <- & <-).
    rewrite router_put_owned in Hput by done. cbv zeta in Hput.
    destruct (validate _ _) as [msg|] eqn:Hv.
    + injection Hput as <- <-. rewrite router_put_owned by done.
      cbv zeta. by rewrite Hv.
    + injection Hput as <- <-.
      pose proof (assign_fields_twice now body t) as Htwice.
      set (t' := touch now (assign_fields body t)) in *.
      assert (t' ∈ replace_doc t' (docs c)) as Hin
        by by apply (replace_doc_stores t).
      pose proof (router_put_owned _ t' now body Hnd1 Hin) as Hput'.
      cbv zeta in Hput'.
      rewrite Htwice in Hput'.
      replace (title (assign_fields body t')) with (title t') in Hput'
        by exact (eq_sym (f_equal title Htwice)).
      replace (priority (assign_fields body t')) with (priority t') in Hput'
        by exact (eq_sym (f_equal priority Htwice)).
      change (validate (Some (title t')) (priority t'))
        with (validate (Some (title (assign_fields body t)))
                       (priority (assign_fields body t))) in Hput'.
      rewrite Hv in Hput'. simpl in Hput'.
      rewrite replace_doc_twice in Hput'. exact Hput'.
  - unfold router_put in Hput. rewrite Hf in Hput. injection Hput as <- <-.
    unfold router_put. by rewrite Hf.
Qed.

Lemma update_twice_witness :
  router_put 2000 alice 0%nat renamed (router_put 2000 alice 0%nat renamed one_todo).2
  = router_put 2000 alice 0%nat renamed one_todo.
Proof.
  apply (update_twice 2000 alice 0%nat renamed one_todo).
  - split; simpl; [apply NoDup_singleton | repeat constructor..].
  - reflexivity.
Defined.

End ServerExtras.

(** ** The list screen and the server *)

Module ScreenProofs.
Import Server ServerSamples ServerProofs Screens ScreenSamples.

(** *** Sorting commutes with what the screen does to its list *)

Lemma insert_desc_fmap (f : Todo → Todo) (x : Todo) (l : list Todo) :
  createdAt (f x) = createdAt x →
  (∀ y, y ∈ l → createdAt (f y) = createdAt y) →
  insert_desc (f x) (f <$> l) = f <$> insert_desc x l.
Proof.
  intros Hx. induction l as [|y l IH]; intros Hl; simpl; [done|].
  rewrite Hx, (Hl y) by left.
  destruct (createdAt y <=? createdAt x); [done|].
  simpl. f_equal. apply IH. intros z Hz. apply Hl. by right.
Qed.

Lemma sort_cons (x : Todo) (l : list Todo) :
  sort_createdAt_desc (x :: l) = insert_desc x (sort_createdAt_desc l).
Proof. done. Qed.

Lemma sort_fmap (f : Todo → Todo) (l : list Todo) :
  (∀ y, y ∈ l → createdAt (f y) = createdAt y) →
  sort_createdAt_desc (f <$> l) = f <$> sort_createdAt_desc l.
Proof.
  induction l as [|x l IH]; intros Hl; [done|].
  rewrite fmap_cons, !sort_cons.
  rewrite IH by (intros y Hy; apply Hl; by right).
  apply insert_desc_fmap; [apply Hl; left|].
  intros y Hy. apply Hl. right. by rewrite <- sort_createdAt_desc_perm.
Qed.

Lemma insert_desc_front (x : Todo) (l : list Todo) :
  Forall (λ z, createdAt z ≤ createdAt x) l → insert_desc x l = x :: l.
Proof.
  intros [|y l' Hy _]; simpl; [done|].
  destruct (Z.leb_spec (createdAt y) (createdAt x)); [done | lia].
Qed.

Lemma newer_first_trans : Transitive newer_first.
Proof. unfold newer_first. intros a b c ??. lia. Qed.

Lemma filter_insert_desc (Q : Todo → Prop) `{!∀ d, Decision (Q d)}
    (x : Todo) (l : list Todo) :
  StronglySorted newer_first l →
  filter Q (insert_desc x l) =
    if decide (Q x) then insert_desc x (filter Q l) else filter Q l.
Proof.
  induction 1 as [|y l Hs IH Hy]; simpl.
  - rewrite filter_cons, filter_nil. by destruct (decide (Q x)).
  - destruct (Z.leb_spec (createdAt y) (createdAt x)) as [Hle|Hlt].
    + rewrite (filter_cons _ x). destruct (decide (Q x)); [|done].
      rewrite insert_desc_front; [done|].
      apply Forall_forall. intros z [_ Hz]%list_elem_of_filter.
      apply elem_of_cons in Hz as [->|Hz]; [done|].
      rewrite Forall_forall in Hy. specialize (Hy z Hz).
      unfold newer_first in Hy. lia.
    + rewrite !(filter_cons _ y), IH.
      destruct (decide (Q y)), (decide (Q x)); simpl; try done.
      destruct (Z.leb_spec (createdAt y) (createdAt x)); [lia | done].
Qed.

Lemma sort_filter (Q : Todo → Prop) `{!∀ d, Decision (Q d)} (l : list Todo) :
  sort_createdAt_desc (filter Q l) = filter Q (sort_createdAt_desc l).
Proof.
  induction l as [|x l IH]; [done|].
  rewrite sort_cons, filter_insert_desc; last first.
  { apply Sorted_StronglySorted; [apply newer_first_trans|].
    apply sort_createdAt_desc_sorted. }
  rewrite filter_cons. destruct (decide (Q x)); [|done].
  by rewrite sort_cons, IH.
Qed.

(** *** What the handlers do to the list of the caller *)

Lemma filter_replace_doc_same (me : ObjectId) (t t' : Todo) (l : list Todo) :
  NoDup (_id <$> l) → t ∈ l → _id t' = _id t → user t' = user t →
  filter (λ d, user d = me) (replace_doc t' l)
  = replace_doc t' (filter (λ d, user d = me) l).
Proof.
  intros Hnd Ht Hid Hu. unfold replace_doc.
  assert (∀ d, d ∈ l → _id d = _id t' → d = t) as Hsame.
  { intros d Hd E. apply (same_id_same_doc l); [done..|congruence]. }
  clear Hnd Ht. induction l as [|x l IH]; [done|].
  rewrite fmap_cons, !filter_cons.
  rewrite IH by (intros d Hd; apply Hsame; by right).
  case_bool_decide as E.
  - rewrite (Hsame x) by (left || done). rewrite Hu.
    destruct (decide (user t = me)); [|done].
    rewrite fmap_cons. rewrite bool_decide_eq_true_2; [done|].
    rewrite <- (Hsame x) by (left || done). done.
  - destruct (decide (user x = me)); [|done].
    rewrite fmap_cons. by rewrite bool_decide_eq_false_2.
Qed.

Lemma filter_all (Q : Todo → Prop) `{!∀ d, Decision (Q d)} (l : list Todo) :
  Forall Q l → filter Q l = l.
Proof.
  induction 1 as [|x l Hx _ IH]; [done|].
  by rewrite filter_cons_True, IH.
Qed.

Lemma delete_first_filter (id : ObjectId) (l : list Todo) :
  NoDup (_id <$> l) →
  delete_first id l = filter (λ d, _id d ≠ id) l.
Proof.
  induction l as [|x l IH]; simpl; [done|].
  rewrite NoDup_cons. intros [Hx Hl]. rewrite filter_cons.
  case_bool_decide as E.
  - rewrite decide_False by (intros H; by apply H).
    symmetry. apply (filter_all (λ d, _id d ≠ id)). apply Forall_forall.
    intros d Hd Hid. apply Hx. rewrite E, <- Hid. by apply list_elem_of_fmap_2.
  - rewrite decide_True by done. f_equal. by apply IH.
Qed.

Lemma put_in_list_replace (t t' : Todo) (l : list Todo) :
  _id t' = _id t → put_in_list t t' l = replace_doc t' l.
Proof. intros E. unfold put_in_list, replace_doc. by rewrite E. Qed.

(** X7. Toggling keeps the list screen in step with the server. If the
    screen shows what the server lists for the user and the update that
    [toggleTodo] sends for one of these Todos is answered 200 with the
    updated Todo, then the list the screen computes locally is the list the
    server would give now, in the same order, the answered Todo having the
    opposite completed flag; nothing is shown to the user. *)
Theorem toggle_keeps_list_in_sync now c t t' c' api s :
  NoDup (_id <$> docs c) → t ∈ docs c →
  router_get (user t) c = mkResponse 200 (JTodos (todos s)) →
  router_put now (user t) (_id t) (toggle_body t) c
    = (mkResponse 200 (JTodo t'), c') →
  updateTodo api (_id t) (toggle_body t) = Return t' →
  completed t' = negb (completed t) ∧
  (toggleTodo api t s).2 = [] ∧
  router_get (user t) c' =
    mkResponse 200 (JTodos (todos (toggleTodo api t s).1)).
Proof.
  intros Hnd Ht Hget Hput Hapi.
  rewrite router_put_owned in Hput by done. cbv zeta in Hput.
  destruct (validate _ _); [discriminate|].
  injection Hput as <- <-.
  unfold toggleTodo. rewrite Hapi. simpl.
  split; [done|]. split; [done|].
  injection Hget as <-.
  unfold router_get, Todo_find. simpl. do 2 f_equal.
  set (t' := touch now (assign_fields (toggle_body t) t)).
  rewrite (put_in_list_replace t t') by done.
  rewrite (filter_replace_doc_same (user t) t t') by done.
  unfold replace_doc. apply sort_fmap.
  intros y [_ Hy]%list_elem_of_filter. case_bool_decide as E; [|done].
  by rewrite (same_id_same_doc (docs c) y t).
Qed.

Lemma toggle_keeps_list_in_sync_witness :
  completed (touch 2000 (assign_fields (toggle_body groceries) groceries))
    = negb (completed groceries) ∧
  (toggleTodo (served_by 2000 alice one_todo) groceries groceries_shown).2 = [] ∧
  router_get alice (router_put 2000 alice 0%nat (toggle_body groceries) one_todo).2 =
    mkResponse 200
      (JTodos (todos (toggleTodo (served_by 2000 alice one_todo) groceries
                                 groceries_shown).1)).
Proof.
  apply (toggle_keeps_list_in_sync 2000 one_todo groceries _ _
           (served_by 2000 alice one_todo) groceries_shown).
  - simpl. apply NoDup_singleton.
  - apply list_elem_of_here.
  - reflexivity.
  - reflexivity.
  - reflexivity.
Defined.

(** X8. Deleting keeps the list screen in step with the server. If the
    screen shows what the server lists for the user and the delete of one of
    these Todos succeeds, the server answers 200 and the list the screen
    computes locally is the list the server would give now; nothing is
    shown to the user. *)
Theorem delete_keeps_list_in_sync c t api s :
  NoDup (_id <$> docs c) → t ∈ docs c →
  router_get (user t) c = mkResponse 200 (JTodos (todos s)) →
  deleteTodo api (_id t) = Return tt →
  status (router_delete (user t) (_id t) c).1 = 200%nat ∧
  (confirmDelete api (_id t) s).2 = [] ∧
  router_get (user t) (router_delete (user t) (_id t) c).2 =
    mkResponse 200 (JTodos (todos (confirmDelete api (_id t) s).1)).
Proof.
  intros Hnd Ht Hget Hapi.
  unfold router_delete. rewrite findOne_owned by done. simpl.
  unfold confirmDelete. rewrite Hapi. simpl.
  split; [done|]. split; [done|].
  injection Hget as <-.
  unfold router_get, Todo_find, drop_from_list. simpl. do 2 f_equal.
  rewrite delete_first_filter by done.
  rewrite <- (sort_filter (λ d, _id d ≠ _id t)). f_equal.
  rewrite !list_filter_filter. apply list_filter_iff.
  intros x. split; intros [??]; done.
Qed.

Lemma delete_keeps_list_in_sync_witness :
  status (router_delete alice 0%nat one_todo).1 = 200%nat ∧
  (confirmDelete (served_by 2000 alice one_todo) 0%nat groceries_shown).2 = [] ∧
  router_get alice (router_delete alice 0%nat one_todo).2 =
    mkResponse 200
      (JTodos (todos (confirmDelete (served_by 2000 alice one_todo) 0%nat
                                    groceries_shown).1)).
Proof.
  apply (delete_keeps_list_in_sync one_todo groceries
           (served_by 2000 alice one_todo) groceries_shown).
  - simpl. apply NoDup_singleton.
  - apply list_elem_of_here.
  - reflexivity.
  - reflexivity.
Defined.

(** *** The Todo calls of [ApiService] and the screens *)

Lemma getAuthHeaders_reads w :
  ∃ h, Client.getAuthHeaders w = (Return h, w, []).
Proof. unfold Client.getAuthHeaders, Client.bind, Client.getItem. eauto. Qed.

Ltac run_call fetched :=
  unfold Client.bind at 1;
  match goal with
  | |- context [Client.getAuthHeaders ?w] =>
      let h := fresh "h" in destruct (getAuthHeaders_reads w) as [h ->]
  end;
  unfold Client.bind, Client.await, Client.throw, Client.ret;
  match goal with
  | |- context [fetched ?n ?h] => destruct (fetched n h) as [[[?|?]|[?|?]]|?]
  | |- context [fetched ?n ?h ?a] => destruct (fetched n h a) as [[[?|?]|[?|?]]|?]
  | |- context [fetched ?n ?h ?a ?b] =>
      destruct (fetched n h a b) as [[[?|?]|[?|?]]|?]
  end.

(** X9. The four Todo calls of [ApiService] only read the device: whatever
    the network answers, and whether they return or throw, the store and
    the session are what they were and nothing has been written. A failing
    Todo request therefore never logs the user out. *)
Theorem todo_calls_never_write net w data id body :
  (∃ r, TodoApi.ApiService_getTodos net w = (r, w, [])) ∧
  (∃ r, TodoApi.ApiService_createTodo net data w = (r, w, [])) ∧
  (∃ r, TodoApi.ApiService_updateTodo net id body w = (r, w, [])) ∧
  (∃ r, TodoApi.ApiService_deleteTodo net id w = (r, w, [])).
Proof.
  split; [|split; [|split]].
  - unfold TodoApi.ApiService_getTodos. run_call TodoApi.fetch_todos; eauto.
  - unfold TodoApi.ApiService_createTodo. run_call TodoApi.fetch_create; eauto.
  - unfold TodoApi.ApiService_updateTodo. run_call TodoApi.fetch_update; eauto.
  - unfold TodoApi.ApiService_deleteTodo. run_call TodoApi.fetch_delete; eauto.
Qed.

Lemma getTodos_fails net w :
  (∀ h, Client.succeeded (TodoApi.fetch_todos net h) = None) →
  ∃ e, getTodos (api_on net w) = Throw e.
Proof.
  intros Hf. unfold api_on, getTodos, TodoApi.ApiService_getTodos.
  unfold Client.bind at 1. destruct (getAuthHeaders_reads w) as [h ->].
  specialize (Hf h).
  unfold Client.bind, Client.await, Client.throw.
  destruct (TodoApi.fetch_todos net h) as [[[?|?]|?]|?]; simpl in *; eauto.
  discriminate.
Qed.

(** X10. Reloading the list always settles: after [loadTodos] the loading
    flag is off and after [handleRefresh] the refreshing flag is off too,
    whatever the request did. When the request fails (error answer, no
    network, unreadable body) the screen keeps the list it showed and shows
    the notice "Failed to load todos". *)
Theorem reload_always_settles net w s :
  loading (loadTodos (api_on net w) s).1 = false ∧
  loading (handleRefresh (api_on net w) s).1 = false ∧
  refreshing (handleRefresh (api_on net w) s).1 = false ∧
  ((∀ h, Client.succeeded (TodoApi.fetch_todos net h) = None) →
   todos (handleRefresh (api_on net w) s).1 = todos s ∧
   (handleRefresh (api_on net w) s).2 = [Alert "Error" "Failed to load todos"]).
Proof.
  unfold handleRefresh, loadTodos. split; [|split; [|split]].
  - by destruct (getTodos _).
  - by destruct (getTodos _).
  - by destruct (getTodos _).
  - intros Hf. by destruct (getTodos_fails net w Hf) as [e ->].
Qed.

Lemma reload_always_settles_witness :
  todos (handleRefresh (api_on TodoApi.unreachable Client.ann_session)
                       groceries_shown).1 = [groceries] ∧
  (handleRefresh (api_on TodoApi.unreachable Client.ann_session)
                 groceries_shown).2 = [Alert "Error" "Failed to load todos"].
Proof.
  refine (proj2 (proj2 (proj2
    (reload_always_settles TodoApi.unreachable Client.ann_session groceries_shown))) _).
  reflexivity.
Defined.

(** *** The add screen *)

Section AddTodoScreen.
Variable trim : string → string.

Lemma handleSubmit_sends api s data :
  (handleSubmit trim api s).2 = Some data →
  trim (form_title (formData s)) ≠ "" ∧
  data = submitted trim (formData s) ∧
  formData (handleSubmit trim api s).1.1 = formData s ∧
  isLoading (handleSubmit trim api s).1.1 = false.
Proof.
  unfold handleSubmit.
  destruct (truthy (trim (form_title (formData s)))) eqn:Ht; simpl;
    [|discriminate].
  apply truthy_true in Ht.
  destruct (createTodo api _); simpl; intros [= <-]; done.
Qed.


(** X12. What the add screen lets through, the create handler accepts: when
    the form holds no due date (the screen has no field for one) and its
    priority is absent or one of the choices the screen offers, the request
    [handleSubmit] makes is answered 201, for any caller and collection,
    with a Todo of that caller, without due date, whose title is the trimmed
    title of the form. *)
Theorem submitted_form_is_accepted api s data now caller c :
  form_dueDate (formData s) = None →
  (form_priority (formData s) = None ∨
   ∃ value label color,
     form_priority (formData s) = Some value ∧
     (value, label, color) ∈ add_priorities) →
  (handleSubmit trim api s).2 = Some data →
  ∃ T c',
    router_post now caller data c = (mkResponse 201 (JTodo T), c') ∧
    title T = trim (form_title (formData s)) ∧
    dueDate T = None ∧
    user T = caller ∧
    docs c' = docs c ++ [T].
Proof.
  intros Hdue Hp Hs.
  apply handleSubmit_sends in Hs as (Hne & -> & _).
  destruct (router_post_cases now caller (submitted trim (formData s)) c)
    as [(msg & Hv & _)|[_ ->]].
  - exfalso. unfold validate in Hv. simpl in Hv.
    apply truthy_true in Hne. rewrite Hne in Hv. simpl in Hv.
    destruct Hp as [Hp|(value & label & color & Hp & Hin)];
      rewrite Hp in Hv; simpl in Hv.
    + discriminate.
    + unfold add_priorities in Hin.
      repeat (apply elem_of_cons in Hin as [[= -> _ _]|Hin]; [discriminate|]).
      by apply elem_of_nil in Hin.
  - eexists _, _. split; [reflexivity|]. simpl. by rewrite Hdue.
Qed.

End AddTodoScreen.

Lemma or_else_again (o : option string) (d : string) :
  or_else (Some (or_else o d)) d = or_else o d.
Proof.
  destruct o as [m|]; simpl.
  - destruct (truthy m) eqn:E; [by rewrite E | by destruct (truthy d)].
  - by destruct (truthy d).
Qed.

(** X14. The add screen shows what went wrong. When the server turns the
    create request down, the notice carries the message of the server's
    answer, or "Failed to create todo" when the answer has none or an empty
    one; when the request does not get through, it carries the message of
    that failure. In both cases the form keeps its content and stops
    loading. *)
Theorem add_screen_shows_server_message (trim : string → string) net w s :
  trim (form_title (formData s)) ≠ "" →
  (∀ b, (∀ h, TodoApi.fetch_create net h (submitted trim (formData s))
                = Return (Client.NotOk (Return b))) →
        handleSubmit trim (api_on net w) s =
          ({| formData := formData s; isLoading := false |},
           [Alert "Error" (or_else (Client.error_message b) "Failed to create todo")],
           Some (submitted trim (formData s)))) ∧
  (∀ e, (∀ h, TodoApi.fetch_create net h (submitted trim (formData s)) = Throw e) →
        handleSubmit trim (api_on net w) s =
          ({| formData := formData s; isLoading := false |},
           [Alert "Error" (or_else (Some (message e)) "Failed to create todo")],
           Some (submitted trim (formData s)))).
Proof.
  intros Ht. apply truthy_true in Ht.
  split; intros x Hx; unfold handleSubmit; rewrite Ht; simpl;
    unfold TodoApi.ApiService_createTodo; unfold Client.bind at 1;
    destruct (getAuthHeaders_reads w) as [h ->];
    unfold Client.bind, Client.await, Client.throw; rewrite Hx; simpl.
  - change (if truthy ?m then ?m else ?d) with (or_else (Some m) d).
    by rewrite or_else_again.
  - done.
Qed.

Lemma add_screen_shows_server_message_witness :
  handleSubmit trim_spaces (api_on TodoApi.failing Client.ann_session) milk_form =
    ({| formData := formData milk_form; isLoading := false |},
     [Alert "Error" "Failed to create todo"],
     Some (submitted trim_spaces (formData milk_form))).
Proof.
  refine (proj1 (add_screen_shows_server_message trim_spaces TodoApi.failing
                   Client.ann_session milk_form _) (Client.mkErrorBody None) _).
  - discriminate.
  - reflexivity.
Defined.


Lemma submitted_form_is_accepted_witness :
  ∃ T c',
    router_post 2000 alice (submitted trim_spaces (formData milk_form)) one_todo
      = (mkResponse 201 (JTodo T), c') ∧
    title T = "Buy milk" ∧ dueDate T = None ∧ user T = alice ∧
    docs c' = docs one_todo ++ [T].
Proof.
  apply (submitted_form_is_accepted trim_spaces
           (served_by 2000 alice one_todo) milk_form).
  - reflexivity.
  - right. exists "high", "High", "#ef4444". split; [reflexivity|].
    unfold add_priorities. do 2 right. left.
  - reflexivity.
Defined.

(** X13. The list screen and the add screen colour the priorities alike,
    and the priorities they know are those of the data model: every choice
    of the add screen has in the list the colour it has in the form and is a
    priority the server accepts, and the list gives the neutral colour to
    exactly the strings that are not such a priority. *)
Theorem priority_colours_agree :
  (∀ value label color, (value, label, color) ∈ add_priorities →
     getPriorityColor value = color ∧ value ∈ priorities) ∧
  (∀ p, getPriorityColor p = "#6b7280" ↔ p ∉ priorities).
Proof.
  assert (∀ p, p ∈ priorities ↔ p = "low" ∨ p = "medium" ∨ p = "high") as Hspec.
  { intros p. unfold priorities. rewrite !elem_of_cons, elem_of_nil. tauto. }
  split.
  - intros value label color Hin. unfold add_priorities in Hin.
    rewrite Hspec.
    repeat (apply elem_of_cons in Hin as [[= -> _ ->]|Hin]; [by auto|]).
    by apply elem_of_nil in Hin.
  - intros p. rewrite Hspec. unfold getPriorityColor.
    destruct (String.eqb_spec p "high") as [->|H1].
    { split; [discriminate | intros H; destruct H; auto]. }
    destruct (String.eqb_spec p "medium") as [->|H2].
    { split; [discriminate | intros H; destruct H; auto]. }
    destruct (String.eqb_spec p "low") as [->|H3].
    { split; [discriminate | intros H; destruct H; auto]. }
    split; [|done]. intros _ [?|[?|?]]; done.
Qed.

End ScreenProofs.

(** ** More on the session manager *)

Module ClientExtras.
Import Client Session ClientProofs.

Lemma startup_with_rejected_token net w t :
  AsyncStorage w !! "token" = Some t → t ≠ "" →
  succeeded (fetch_me net (bearer t)) = None →
  checkAuthState net w =
    (Return tt,
     {| AsyncStorage := delete "token" (AsyncStorage w); authState := anonymous |},
     [{| AsyncStorage := delete "token" (AsyncStorage w); authState := authState w |};
      {| AsyncStorage := delete "token" (AsyncStorage w); authState := anonymous |}]).
Proof.
  intros Hs Ht Hf.
  destruct (getCurrentUser_fails net w t Hs Ht Hf) as [e He].
  unfold checkAuthState, try_catch, bind at 1, getItem. rewrite Hs.
  simpl. apply truthy_true in Ht. rewrite Ht.
  unfold bind at 1. rewrite He. reflexivity.
Qed.

(** The three ways the startup sequence can go. *)
Lemma startup_cases net w :
  (truthy_opt (AsyncStorage w !! "token") = false ∧
   checkAuthState net w =
     (Return tt, {| AsyncStorage := AsyncStorage w; authState := anonymous |},
      [{| AsyncStorage := AsyncStorage w; authState := anonymous |}])) ∨
  (∃ t u, AsyncStorage w !! "token" = Some t ∧ t ≠ "" ∧
     checkAuthState net w =
       (Return tt,
        {| AsyncStorage := AsyncStorage w;
           authState := {| user := Some u; token := Some t; isLoading := false |} |},
        [{| AsyncStorage := AsyncStorage w;
            authState := {| user := Some u; token := Some t; isLoading := false |} |}])) ∨
  (∃ t, AsyncStorage w !! "token" = Some t ∧ t ≠ "" ∧
     checkAuthState net w =
       (Return tt,
        {| AsyncStorage := delete "token" (AsyncStorage w); authState := anonymous |},
        [{| AsyncStorage := delete "token" (AsyncStorage w); authState := authState w |};
         {| AsyncStorage := delete "token" (AsyncStorage w); authState := anonymous |}])).
Proof.
  destruct (truthy_opt (AsyncStorage w !! "token")) eqn:Htr.
  - destruct (AsyncStorage w !! "token") as [t|] eqn:Hs; [|discriminate].
    simpl in Htr. apply truthy_true in Htr.
    destruct (succeeded (fetch_me net (bearer t))) as [u|] eqn:Hf.
    + right. left. exists t, u. eauto using startup_with_valid_token.
    + right. right. exists t. eauto using startup_with_rejected_token.
  - left. split; [done|]. by apply startup_without_token.
Qed.

(** X15. The startup sequence always settles: whatever the store holds and
    whatever the network does, [checkAuthState] returns without throwing and
    leaves a session that is no longer loading, so that neither routing
    component shows the loading indicator any more; the session has a token
    exactly when it has a user, and that token is the one in the store. *)
Theorem startup_always_settles net w :
  ∃ w' h,
    checkAuthState net w = (Return tt, w', h) ∧
    isLoading (authState w') = false ∧
    IndexScreen (authState w') ≠ ActivityIndicator ∧
    TabLayout (authState w') ≠ ActivityIndicator ∧
    (user (authState w') = None ↔ token (authState w') = None) ∧
    in_step w'.
Proof.
  destruct (startup_cases net w)
    as [[_ ->]|[(t & u & Hs & _ & ->)|(t & _ & _ & ->)]];
    eexists _, _; (split; [reflexivity|]); unfold in_step; simpl;
    repeat split; try done.
  by intros t' [= <-].
Qed.

(** X16. After a logout, a restart of the application stays logged out and
    asks the server nothing: the store has no token left, so
    [checkAuthState] ends in the anonymous session with the store as the
    logout left it, the same for every network. *)
Theorem restart_after_logout net w :
  let w1 := (logout w).1.2 in
  let w2 := {| AsyncStorage := delete "token" (AsyncStorage w);
               authState := anonymous |} in
  AsyncStorage w1 !! "token" = None ∧
  checkAuthState net w1 = (Return tt, w2, [w2]).
Proof.
  simpl. split; [apply lookup_delete_eq|].
  rewrite startup_without_token; [done|].
  simpl. by rewrite lookup_delete_eq.
Qed.

(** *** Signing in *)

Lemma login_cases net data w :
  (∃ r, succeeded (fetch_login net data) = Some r ∧
        login net data w = (Return tt, (signed_in w r).1, (signed_in w r).2)) ∨
  (∃ e, login net data w = (Throw e, w, [])).
Proof.
  destruct (succeeded (fetch_login net data)) as [r|] eqn:Hs.
  - left. eauto using login_succeeds.
  - right. destruct (ApiService_login_fails net data w Hs) as [e He].
    eauto using login_rethrows.
Qed.

Lemma register_cases net data w :
  (∃ r, succeeded (fetch_register net data) = Some r ∧
        register net data w = (Return tt, (signed_in w r).1, (signed_in w r).2)) ∨
  (∃ e, register net data w = (Throw e, w, [])).
Proof.
  destruct (succeeded (fetch_register net data)) as [r|] eqn:Hs.
  - left. eauto using register_succeeds.
  - right. destruct (ApiService_register_fails net data w Hs) as [e He].
    eauto using register_rethrows.
Qed.

Lemma headers_after_sign_in w r :
  response_token r ≠ "" →
  getAuthHeaders (signed_in w r).1 =
    (Return (bearer (response_token r)), (signed_in w r).1, []).
Proof.
  intros Ht. apply getAuthHeaders_stored; [|done].
  simpl. apply lookup_insert_eq.
Qed.

(** X17. After a login or a registration that succeeded with a non-empty
    token, the token is in the store before the session changes, the
    session then holds the user and the token of the answer, and the next
    requests of [ApiService] carry the header "Bearer " followed by that
    token. *)
Theorem requests_carry_new_token net w ldata rdata :
  (∀ r, succeeded (fetch_login net ldata) = Some r → response_token r ≠ "" →
     ∃ w1 w2,
       login net ldata w = (Return tt, w2, [w1; w2]) ∧
       AsyncStorage w1 !! "token" = Some (response_token r) ∧
       authState w1 = authState w ∧
       authState w2 = {| user := Some (response_user r);
                         token := Some (response_token r);
                         isLoading := false |} ∧
       getAuthHeaders w2 = (Return (bearer (response_token r)), w2, [])) ∧
  (∀ r, succeeded (fetch_register net rdata) = Some r → response_token r ≠ "" →
     ∃ w1 w2,
       register net rdata w = (Return tt, w2, [w1; w2]) ∧
       AsyncStorage w1 !! "token" = Some (response_token r) ∧
       authState w1 = authState w ∧
       authState w2 = {| user := Some (response_user r);
                         token := Some (response_token r);
                         isLoading := false |} ∧
       getAuthHeaders w2 = (Return (bearer (response_token r)), w2, [])).
Proof.
  split; intros r Hs Ht.
  - rewrite (login_succeeds net ldata w r Hs).
    eexists _, _. split; [reflexivity|]. simpl.
    split; [apply lookup_insert_eq|]. do 2 (split; [done|]).
    by apply (headers_after_sign_in w r).
  - rewrite (register_succeeds net rdata w r Hs).
    eexists _, _. split; [reflexivity|]. simpl.
    split; [apply lookup_insert_eq|]. do 2 (split; [done|]).
    by apply (headers_after_sign_in w r).
Qed.

Lemma requests_carry_new_token_witness :
  ∃ w1 w2,
    login welcoming ann_login signed_out = (Return tt, w2, [w1; w2]) ∧
    AsyncStorage w1 !! "token" = Some "ann.jwt" ∧
    authState w1 = authState signed_out ∧
    authState w2 = {| user := Some ann; token := Some "ann.jwt";
                      isLoading := false |} ∧
    getAuthHeaders w2 = (Return (bearer "ann.jwt"), w2, []).
Proof.
  refine (proj1 (requests_carry_new_token welcoming signed_out ann_login ann_register)
            (mkAuthResponse ann "ann.jwt") _ _).
  - reflexivity.
  - discriminate.
Defined.

(** X18. A restart after a successful login restores the session: if the
    login succeeded with a non-empty token and the server still accepts
    that token, [checkAuthState] ends in the session of the user the server
    names, with the token of the login, and leaves the store alone. *)
Theorem restart_after_login net w data r u :
  succeeded (fetch_login net data) = Some r → response_token r ≠ "" →
  succeeded (fetch_me net (bearer (response_token r))) = Some u →
  let w1 := (login net data w).1.2 in
  let w2 := {| AsyncStorage := AsyncStorage w1;
               authState := {| user := Some u; token := Some (response_token r);
                               isLoading := false |} |} in
  AsyncStorage w1 !! "token" = Some (response_token r) ∧
  checkAuthState net w1 = (Return tt, w2, [w2]).
Proof.
  intros Hs Ht Hme. rewrite (login_succeeds net data w r Hs). simpl.
  split; [apply lookup_insert_eq|].
  rewrite (startup_with_valid_token net _ (response_token r) u); try done.
  simpl. apply lookup_insert_eq.
Qed.

Lemma restart_after_login_witness :
  let w1 := (login welcoming ann_login signed_out).1.2 in
  let w2 := {| AsyncStorage := AsyncStorage w1;
               authState := {| user := Some ann; token := Some "ann.jwt";
                               isLoading := false |} |} in
  AsyncStorage w1 !! "token" = Some "ann.jwt" ∧
  checkAuthState welcoming w1 = (Return tt, w2, [w2]).
Proof.
  apply (restart_after_login welcoming signed_out ann_login
           (mkAuthResponse ann "ann.jwt") ann).
  - reflexivity.
  - discriminate.
  - reflexivity.
Defined.

(** *** What the session manager leaves alone *)

(** X19. The session manager uses one key of the store. Under every other
    key the store holds, throughout the startup sequence, a login, a
    registration and a logout and at their end, what it held before. *)
Theorem only_token_key_is_touched net w ldata rdata k :
  k ≠ "token" →
  let kept (r : outcome unit * World * list World) :=
    Forall (λ x, AsyncStorage x !! k = AsyncStorage w !! k) (r.1.2 :: r.2) in
  kept (checkAuthState net w) ∧
  kept (login net ldata w) ∧
  kept (register net rdata w) ∧
  kept (logout w).
Proof.
  intros Hk. cbv zeta. split; [|split; [|split]].
  - destruct (startup_cases net w)
      as [[_ ->]|[(t & u & _ & _ & ->)|(t & _ & _ & ->)]];
      simpl; repeat constructor; simpl; by rewrite ?lookup_delete_ne.
  - destruct (login_cases net ldata w) as [(r & _ & ->)|(e & ->)];
      simpl; repeat constructor; simpl; by rewrite ?lookup_insert_ne.
  - destruct (register_cases net rdata w) as [(r & _ & ->)|(e & ->)];
      simpl; repeat constructor; simpl; by rewrite ?lookup_insert_ne.
  - simpl. repeat constructor; simpl; by rewrite ?lookup_delete_ne.
Qed.

Lemma only_token_key_is_touched_witness :
  Forall (λ x, AsyncStorage x !! "theme" = Some "dark")
         ((login welcoming ann_login themed).1.2 :: (login welcoming ann_login themed).2).
Proof.
  refine (proj1 (proj2
    (only_token_key_is_touched welcoming themed ann_login ann_register "theme" _))).
  discriminate.
Defined.

(** X20. Session and store stay in step: if the session holds no token
    that the store does not hold, the same is true after a login and after
    a registration, whether they succeed or fail; it is true after a
    logout and after the startup sequence whatever held before. *)
Theorem session_in_step_with_store net w ldata rdata :
  in_step (logout w).1.2 ∧
  in_step (checkAuthState net w).1.2 ∧
  (in_step w →
   in_step (login net ldata w).1.2 ∧ in_step (register net rdata w).1.2).
Proof.
  split; [|split].
  - unfold in_step. simpl. discriminate.
  - destruct (startup_cases net w)
      as [[_ ->]|[(t & u & Hs & _ & ->)|(t & _ & _ & ->)]];
      unfold in_step; simpl; try discriminate.
    by intros t' [= <-].
  - intros Hw. split.
    + destruct (login_cases net ldata w) as [(r & _ & ->)|(e & ->)];
        [|done]. unfold in_step. simpl. intros t [= <-]. apply lookup_insert_eq.
    + destruct (register_cases net rdata w) as [(r & _ & ->)|(e & ->)];
        [|done]. unfold in_step. simpl. intros t [= <-]. apply lookup_insert_eq.
Qed.

Lemma session_in_step_with_store_witness :
  in_step (login welcoming ann_login signed_out).1.2 ∧
  in_step (register welcoming ann_register signed_out).1.2.
Proof.
  refine (proj2 (proj2
    (session_in_step_with_store welcoming signed_out ann_login ann_register)) _).
  unfold in_step. simpl. discriminate.
Defined.

End ClientExtras.
